(** * Channel-configuration policies (pkg/config/policies.go)

    A shallow embedding of the policy getters, installers, removers and of
    the formatter that renders stored policies as text, followed by the
    properties proved about them.

    Conventions of the embedding.
    - A Go function returning [(T, error)] becomes a function into
      [result T]: [Ok v] for [(v, nil)], [Err msg] for a non-nil error with
      that message, [Panic] for a run-time panic (nil dereference, index out
      of range, assignment to an entry of a nil map).
    - A Go function that mutates an object and returns [error] becomes a
      function from the object's state to [outcome]: the state it leaves and
      the error it returns, or a panic.
    - [int32] values are integers of [Z]; the one conversion the source
      performs, [int32(len(...))], is written out with its wrap-around.
    - Go strings are byte strings: Rocq's [string].
    - A Go map is a [gmap]; a map that is also written keeps its nil state
      apart ([None]).  The order in which [range] visits a map is not fixed
      by the language: it is a parameter, and the properties hold for every
      order. *)

From Stdlib Require Import ZArith String Ascii List.
From Stdlib.Strings Require Import Byte.
From stdpp Require Import base option list gmap strings pretty.

Set Warnings "-register-all".
#[local] Open Scope string_scope.
#[local] Open Scope Z_scope.

(** ** Results of fallible and of mutating functions *)

Inductive result (A : Type) : Type :=
| Ok (a : A)
| Err (msg : string)
| Panic.
Arguments Ok {A} a.
Arguments Err {A} msg.
Arguments Panic {A}.

Definition result_bind {A B : Type} (m : result A) (k : A -> result B) : result B :=
  match m with
  | Ok a => k a
  | Err e => Err e
  | Panic => Panic
  end.

#[global] Instance result_mbind : MBind result :=
  fun A B k m => result_bind m k.
#[global] Instance result_mret : MRet result := @Ok.

(** [Returns s err]: the call returned [err] ([None] is Go's [nil]) and left
    the mutated object in state [s]. *)
Inductive outcome (S : Type) : Type :=
| Returns (s : S) (err : option string)
| Panics.
Arguments Returns {S} s err.
Arguments Panics {S}.

(** ** The parts of Go's runtime and standard library the source uses *)

Definition int32 (z : Z) : Z := (z + 2 ^ 31) mod 2 ^ 32 - 2 ^ 31.

Definition len {A : Type} (l : list A) : Z := Z.of_nat (length l).

(** [l[i]] for a slice: out of range panics. *)
Definition index {A : Type} (l : list A) (i : Z) : result A :=
  if (0 <=? i) && (i <? len l) then
    match l !! Z.to_nat i with
    | Some a => Ok a
    | None => Panic
    end
  else Panic.

(** Dereferencing a pointer: nil panics. *)
Definition deref {A : Type} (p : option A) : result A :=
  match p with
  | Some a => Ok a
  | None => Panic
  end.

Module strconv.
Definition Itoa (n : Z) : string := pretty n.
End strconv.

Module Strings.
(** On the ASCII strings the source passes them (gate keywords, enum names,
    group keys), Go's [strings.ToUpper] and [strings.ToLower] change the
    letters a-z and A-Z and nothing else. *)
Definition upper (c : ascii) : ascii :=
  let n := nat_of_ascii c in
  if ((97 <=? n) && (n <=? 122))%nat then ascii_of_nat (n - 32) else c.

Definition lower (c : ascii) : ascii :=
  let n := nat_of_ascii c in
  if ((65 <=? n) && (n <=? 90))%nat then ascii_of_nat (n + 32) else c.

Fixpoint ToUpper (s : string) : string :=
  match s with
  | EmptyString => EmptyString
  | String c s' => String (upper c) (ToUpper s')
  end.

Fixpoint ToLower (s : string) : string :=
  match s with
  | EmptyString => EmptyString
  | String c s' => String (lower c) (ToLower s')
  end.

Fixpoint Join (elems : list string) (sep : string) : string :=
  match elems with
  | [] => ""
  | [e] => e
  | e :: rest => e +:+ sep +:+ Join rest sep
  end.
End Strings.

(** [proto.EnumName]: the member's name, or the number in decimal when the
    value is not a member. *)
Fixpoint EnumName (names : list (Z * string)) (v : Z) : string :=
  match names with
  | [] => strconv.Itoa v
  | (k, name) :: rest => if v =? k then name else EnumName rest v
  end.

(** ** Protobuf messages (packages [cb] and [mb])

    Only the fields the source reads or writes are kept.  Message pointers
    held in repeated fields and in maps are taken to be non-nil, as the
    protobuf decoder leaves them; pointers held in singular fields may be
    nil and are modelled as such. *)

Module mb.
(** Modelled from the spec: the principal classifications of the protobuf
    definitions (not under src/): ROLE, ORGANIZATION_UNIT, IDENTITY,
    ANONYMITY and COMBINED. *)
Definition MSPPrincipal_ROLE : Z := 0.
Definition MSPPrincipal_ORGANIZATION_UNIT : Z := 1.
Definition MSPPrincipal_IDENTITY : Z := 2.
Definition MSPPrincipal_ANONYMITY : Z := 3.
Definition MSPPrincipal_COMBINED : Z := 4.

Definition MSPPrincipal_Classification_String (c : Z) : string :=
  EnumName [(MSPPrincipal_ROLE, "ROLE");
            (MSPPrincipal_ORGANIZATION_UNIT, "ORGANIZATION_UNIT");
            (MSPPrincipal_IDENTITY, "IDENTITY");
            (MSPPrincipal_ANONYMITY, "ANONYMITY");
            (MSPPrincipal_COMBINED, "COMBINED")] c.

(** Modelled from the spec: the role enum carried by a ROLE payload (not
    under src/), printed by its [String] method. *)
Definition MSPRole_MSPRoleType_String (r : Z) : string :=
  EnumName [(0, "MEMBER"); (1, "ADMIN"); (2, "CLIENT"); (3, "PEER");
            (4, "ORDERER")] r.

Record MSPPrincipal := {
  PrincipalClassification : Z;
  Principal : list byte
}.

Record MSPRole := {
  MspIdentifier : string;
  Role : Z
}.
End mb.

Module cb.
(** Modelled from the spec: the policy kind-tags [Policy_PolicyType] of the
    protobuf definitions (not under src/); the spec names IMPLICIT_META and
    SIGNATURE and treats every other tag as unknown. *)
Definition Policy_UNKNOWN : Z := 0.
Definition Policy_SIGNATURE : Z := 1.
Definition Policy_MSP : Z := 2.
Definition Policy_IMPLICIT_META : Z := 3.

(** Modelled from the spec: the quantifiers [ImplicitMetaPolicy_Rule] of
    the protobuf definitions (not under src/), ANY, ALL and MAJORITY, and
    the canonical names their [String] method prints. *)
Definition ImplicitMetaPolicy_ANY : Z := 0.
Definition ImplicitMetaPolicy_ALL : Z := 1.
Definition ImplicitMetaPolicy_MAJORITY : Z := 2.

Definition ImplicitMetaPolicy_Rule_String (r : Z) : string :=
  EnumName [(ImplicitMetaPolicy_ANY, "ANY"); (ImplicitMetaPolicy_ALL, "ALL");
            (ImplicitMetaPolicy_MAJORITY, "MAJORITY")] r.

Record ImplicitMetaPolicy := {
  imp_SubPolicy : string;
  imp_Rule : Z
}.

(** A [*cb.SignaturePolicy].  [NilPolicy] is the nil pointer and
    [TypeUnset] a message whose oneof [Type] is nil; [SignedBy] and
    [NOutOf] are the two oneof cases, the latter with its non-nil
    [SignaturePolicy_NOutOf] message inlined. *)
Inductive SignaturePolicy : Type :=
| NilPolicy
| TypeUnset
| SignedBy (i : Z)
| NOutOf (N : Z) (Rules : list SignaturePolicy).

Record SignaturePolicyEnvelope := {
  sp_Rule : SignaturePolicy;
  sp_Identities : list mb.MSPPrincipal
}.

Record Policy := {
  p_Type : Z;
  p_Value : list byte
}.

Record ConfigPolicy := {
  cp_Policy : option Policy;
  cp_ModPolicy : string
}.

(** A config group.  [Groups] is only ever read, and a nil map reads as an
    empty one; [Policies] is also written, which panics on a nil map, so
    its nil state ([None]) is kept apart from the empty map. *)
Inductive ConfigGroup : Type :=
  Build_ConfigGroup {
    Groups : gmap string ConfigGroup;
    Policies : option (gmap string ConfigPolicy)
  }.

Record Config := {
  ChannelGroup : option ConfigGroup
}.
End cb.

Module policydsl.
(** Modelled from the spec: the gate keywords of package policydsl (not
    under src/), which the formatter upper-cases into OR, AND and OUTOF. *)
Definition GateAnd : string := "And".
Definition GateOr : string := "Or".
Definition GateOutOf : string := "OutOf".
End policydsl.

(** ** The signature-tree formatter *)

(** signaturePolicyToString recursively converts a [*cb.SignaturePolicy] to
    a string representation. *)
Fixpoint signaturePolicyToString (sig : cb.SignaturePolicy) (IDs : list string)
  : result string :=
  match sig with
  | cb.NilPolicy => Panic
  | cb.NOutOf N Rules =>
      let gate := policydsl.GateOutOf in
      let gate := if N =? 1 then policydsl.GateOr else gate in
      let gate := if N =? int32 (len Rules) then policydsl.GateAnd else gate in
      let policies :=
        if String.eqb gate policydsl.GateOutOf then [strconv.Itoa N] else [] in
      policies ←
        (fix subpolicies (rules : list cb.SignaturePolicy) (policies : list string)
           : result (list string) :=
           match rules with
           | [] => Ok policies
           | rule :: rest =>
               subPolicy ← signaturePolicyToString rule IDs;
               subpolicies rest (policies ++ [subPolicy])%list
           end) Rules policies;
      Ok (Strings.ToUpper gate +:+ "(" +:+ Strings.Join policies ", " +:+ ")")
  | cb.SignedBy i => index IDs i
  | cb.TypeUnset => Err "unknown signature policy type <nil>"
  end.

(** ** Package [config]: constants, the logical policy, the collaborators *)

(** Modelled from the spec: the fixed group keys and policy names of package
    config (declared outside src/). *)
Definition ConsortiumsGroupKey : string := "Consortiums".
Definition OrdererGroupKey : string := "Orderer".
Definition ApplicationGroupKey : string := "Application".
Definition AdminsPolicyKey : string := "Admins".
Definition ReadersPolicyKey : string := "Readers".
Definition WritersPolicyKey : string := "Writers".
Definition BlockValidationPolicyKey : string := "BlockValidation".

(** Modelled from the spec: the two kinds of the logical policy, ImplicitMeta
    and Signature (declared outside src/). *)
Definition ImplicitMetaPolicyType : string := "ImplicitMeta".
Definition SignaturePolicyType : string := "Signature".

(** Policy is the logical form exchanged with callers: a kind and a textual
    rule. *)
Record Policy := {
  Type_ : string;
  Rule : string
}.

(** What the source calls and does not define: the binary codec
    ([proto.Marshal], [proto.Unmarshal] at the three message types decoded
    here), the two textual-rule compilers, and the order in which the Go
    runtime's [range] visits the entries of a map (any permutation of them;
    see [range_lawful]). *)
Class Externals := {
  unmarshal_ImplicitMetaPolicy : list byte -> result cb.ImplicitMetaPolicy;
  unmarshal_SignaturePolicyEnvelope : list byte -> result cb.SignaturePolicyEnvelope;
  unmarshal_MSPRole : list byte -> result mb.MSPRole;
  marshal_ImplicitMetaPolicy : cb.ImplicitMetaPolicy -> result (list byte);
  marshal_SignaturePolicyEnvelope : cb.SignaturePolicyEnvelope -> result (list byte);
  implicitMetaFromString : string -> result cb.ImplicitMetaPolicy;
  policydsl_FromString : string -> result cb.SignaturePolicyEnvelope;
  range_order : forall V : Type, list (string * V) -> list (string * V)
}.
Arguments range_order {_ V} _.

Definition range_lawful (E : Externals) : Prop :=
  forall (V : Type) (l : list (string * V)), range_order l ≡ₚ l.

(** The entries of a Go map in the order [range] visits them; a nil map has
    none. *)
Definition range {E : Externals} {V : Type} (m : option (gmap string V))
  : list (string * V) :=
  range_order (map_to_list (default ∅ m)).

Section policies.
Context {E : Externals}.

(** implicitMetaToString converts a [*cb.ImplicitMetaPolicy] to a string
    representation. *)
Definition implicitMetaToString (imp : cb.ImplicitMetaPolicy) : result string :=
  let rule := cb.imp_Rule imp in
  args ←
    (if rule =? cb.ImplicitMetaPolicy_ANY then
       Ok ("" +:+ cb.ImplicitMetaPolicy_Rule_String cb.ImplicitMetaPolicy_ANY)
     else if rule =? cb.ImplicitMetaPolicy_ALL then
       Ok ("" +:+ cb.ImplicitMetaPolicy_Rule_String cb.ImplicitMetaPolicy_ALL)
     else if rule =? cb.ImplicitMetaPolicy_MAJORITY then
       Ok ("" +:+ cb.ImplicitMetaPolicy_Rule_String cb.ImplicitMetaPolicy_MAJORITY)
     else
       Err ("unknown implicit meta policy rule type "
            +:+ cb.ImplicitMetaPolicy_Rule_String rule));
  Ok (args +:+ " " +:+ cb.imp_SubPolicy imp).

(** mspPrincipalToString converts a [*mb.MSPPrincipal] to a string
    representation. *)
Definition mspPrincipalToString (principal : mb.MSPPrincipal) : result string :=
  let c := mb.PrincipalClassification principal in
  if c =? mb.MSPPrincipal_ROLE then
    role ← unmarshal_MSPRole (mb.Principal principal);
    Ok ("'" +:+ mb.MspIdentifier role +:+ "."
        +:+ Strings.ToLower (mb.MSPRole_MSPRoleType_String (mb.Role role)) +:+ "'")
  else if c =? mb.MSPPrincipal_ORGANIZATION_UNIT then Ok ""
  else if c =? mb.MSPPrincipal_IDENTITY then Ok ""
  else if c =? mb.MSPPrincipal_ANONYMITY then Ok ""
  else if c =? mb.MSPPrincipal_COMBINED then Ok ""
  else
    Err ("unknown MSP principal classiciation "
         +:+ mb.MSPPrincipal_Classification_String c).

(** signatureMetaToString converts a [*cb.SignaturePolicyEnvelope] to a
    string representation. *)
Definition signatureMetaToString (sig : cb.SignaturePolicyEnvelope) : result string :=
  roles ←
    (fix identities (ids : list mb.MSPPrincipal) (roles : list string)
       : result (list string) :=
       match ids with
       | [] => Ok roles
       | id :: rest =>
           role ← mspPrincipalToString id;
           identities rest (roles ++ [role])%list
       end) (cb.sp_Identities sig) [];
  signaturePolicyToString (cb.sp_Rule sig) roles.

(** The body of [getPolicies]'s loop, run over the entries in the order
    given, with [p] the map built so far. *)
Fixpoint getPolicies_range (entries : list (string * cb.ConfigPolicy))
    (p : gmap string Policy) : result (gmap string Policy) :=
  match entries with
  | [] => Ok p
  | (name, policy) :: rest =>
      pol ← deref (cb.cp_Policy policy);
      if cb.p_Type pol =? cb.Policy_IMPLICIT_META then
        imp ← unmarshal_ImplicitMetaPolicy (cb.p_Value pol);
        rule ← implicitMetaToString imp;
        getPolicies_range rest
          (<[name := {| Type_ := ImplicitMetaPolicyType; Rule := rule |}]> p)
      else if cb.p_Type pol =? cb.Policy_SIGNATURE then
        sp ← unmarshal_SignaturePolicyEnvelope (cb.p_Value pol);
        rule ← signatureMetaToString sp;
        getPolicies_range rest
          (<[name := {| Type_ := SignaturePolicyType; Rule := rule |}]> p)
      else
        Err ("unknown policy type: " +:+ strconv.Itoa (cb.p_Type pol))
  end.

(** getPolicies returns a map of Policy from given map of ConfigPolicy in
    organization config group. *)
Definition getPolicies (policies : option (gmap string cb.ConfigPolicy))
  : result (gmap string Policy) :=
  getPolicies_range (range policies) ∅.

(** *** Getters *)

(** GetPoliciesForConsortiums returns a map of policies for channel
    consortiums. *)
Definition GetPoliciesForConsortiums (config : cb.Config)
  : result (gmap string Policy) :=
  channelGroup ← deref (cb.ChannelGroup config);
  match cb.Groups channelGroup !! ConsortiumsGroupKey with
  | None => Err "consortiums missing from config"
  | Some consortiums => getPolicies (cb.Policies consortiums)
  end.

(** GetPoliciesForConsortium returns a map of policies for a specific
    consortium. *)
Definition GetPoliciesForConsortium (config : cb.Config) (consortiumName : string)
  : result (gmap string Policy) :=
  channelGroup ← deref (cb.ChannelGroup config);
  consortiums ← deref (cb.Groups channelGroup !! ConsortiumsGroupKey);
  match cb.Groups consortiums !! consortiumName with
  | None =>
      Err ("consortium " +:+ consortiumName +:+ " does not exist in channel config")
  | Some consortium => getPolicies (cb.Policies consortium)
  end.

(** GetPoliciesForConsortiumOrg returns a map of policies for a specific
    consortium org. *)
Definition GetPoliciesForConsortiumOrg (config : cb.Config)
    (consortiumName orgName : string) : result (gmap string Policy) :=
  channelGroup ← deref (cb.ChannelGroup config);
  consortiums ← deref (cb.Groups channelGroup !! ConsortiumsGroupKey);
  consortium ← deref (cb.Groups consortiums !! consortiumName);
  match cb.Groups consortium !! orgName with
  | None =>
      Err ("consortium org " +:+ orgName +:+ " does not exist in channel config")
  | Some org => getPolicies (cb.Policies org)
  end.

(** GetPoliciesForOrderer returns a map of policies for channel orderer. *)
Definition GetPoliciesForOrderer (config : cb.Config)
  : result (gmap string Policy) :=
  channelGroup ← deref (cb.ChannelGroup config);
  match cb.Groups channelGroup !! OrdererGroupKey with
  | None => Err "orderer missing from config"
  | Some orderer => getPolicies (cb.Policies orderer)
  end.

(** GetPoliciesForOrdererOrg returns a map of policies for a specific org. *)
Definition GetPoliciesForOrdererOrg (config : cb.Config) (orgName : string)
  : result (gmap string Policy) :=
  channelGroup ← deref (cb.ChannelGroup config);
  orderer ← deref (cb.Groups channelGroup !! OrdererGroupKey);
  match cb.Groups orderer !! orgName with
  | None =>
      Err ("orderer org " +:+ orgName +:+ " does not exist in channel config")
  | Some org => getPolicies (cb.Policies org)
  end.

(** GetPoliciesForApplication returns a map of policies for application
    config group. *)
Definition GetPoliciesForApplication (config : cb.Config)
  : result (gmap string Policy) :=
  channelGroup ← deref (cb.ChannelGroup config);
  match cb.Groups channelGroup !! ApplicationGroupKey with
  | None => Err "application missing from config"
  | Some application => getPolicies (cb.Policies application)
  end.

(** GetPoliciesForApplicationOrg returns a map of policies for specific
    application organization. *)
Definition GetPoliciesForApplicationOrg (config : cb.Config) (orgName : string)
  : result (gmap string Policy) :=
  channelGroup ← deref (cb.ChannelGroup config);
  application ← deref (cb.Groups channelGroup !! ApplicationGroupKey);
  match cb.Groups application !! orgName with
  | None =>
      Err ("application org " +:+ orgName +:+ " does not exist in channel config")
  | Some orgGroup => getPolicies (cb.Policies orgGroup)
  end.

(** *** Installing and removing on one group

    [cg] is the pointer the Go function receives ([None] is nil); the
    outcome carries the state of the group it points to afterwards. *)

(** [cg.Policies[policyName] = policy]: panics on a nil group and on a nil
    map. *)
Definition store_policy (cg : option cb.ConfigGroup) (policyName : string)
    (policy : cb.ConfigPolicy) : outcome (option cb.ConfigGroup) :=
  match cg with
  | None => Panics
  | Some g =>
      match cb.Policies g with
      | None => Panics
      | Some policies =>
          Returns (Some (cb.Build_ConfigGroup (cb.Groups g)
                           (Some (<[policyName := policy]> policies)))) None
      end
  end.

Definition addPolicy (cg : option cb.ConfigGroup) (modPolicy policyName : string)
    (policy : Policy) : outcome (option cb.ConfigGroup) :=
  if String.eqb (Type_ policy) ImplicitMetaPolicyType then
    match implicitMetaFromString (Rule policy) with
    | Panic => Panics
    | Err err =>
        Returns cg (Some ("invalid implicit meta policy rule: '" +:+ Rule policy
                          +:+ "': " +:+ err))
    | Ok imp =>
        match marshal_ImplicitMetaPolicy imp with
        | Panic => Panics
        | Err err => Returns cg (Some ("marshaling implicit meta policy: " +:+ err))
        | Ok implicitMetaPolicy =>
            store_policy cg policyName
              {| cb.cp_ModPolicy := modPolicy;
                 cb.cp_Policy :=
                   Some {| cb.p_Type := int32 cb.Policy_IMPLICIT_META;
                           cb.p_Value := implicitMetaPolicy |} |}
        end
    end
  else if String.eqb (Type_ policy) SignaturePolicyType then
    match policydsl_FromString (Rule policy) with
    | Panic => Panics
    | Err err =>
        Returns cg (Some ("invalid signature policy rule: '" +:+ Rule policy
                          +:+ "': " +:+ err))
    | Ok sp =>
        match marshal_SignaturePolicyEnvelope sp with
        | Panic => Panics
        | Err err => Returns cg (Some ("marshaling signature policy: " +:+ err))
        | Ok signaturePolicy =>
            store_policy cg policyName
              {| cb.cp_ModPolicy := modPolicy;
                 cb.cp_Policy :=
                   Some {| cb.p_Type := int32 cb.Policy_SIGNATURE;
                           cb.p_Value := signaturePolicy |} |}
        end
    end
  else Returns cg (Some ("unknown policy type: " +:+ Type_ policy)).

(** The loop of [addPolicies] over the entries in the order given. *)
Fixpoint addPolicies_range (cg : option cb.ConfigGroup) (modPolicy : string)
    (entries : list (string * Policy)) : outcome (option cb.ConfigGroup) :=
  match entries with
  | [] => Returns cg None
  | (policyName, policy) :: rest =>
      match addPolicy cg modPolicy policyName policy with
      | Panics => Panics
      | Returns cg' (Some err) => Returns cg' (Some err)
      | Returns cg' None => addPolicies_range cg' modPolicy rest
      end
  end.

Definition addPolicies (cg : option cb.ConfigGroup)
    (policyMap : option (gmap string Policy)) (modPolicy : string)
  : outcome (option cb.ConfigGroup) :=
  match policyMap with
  | None => Returns cg (Some "no policies defined")
  | Some entries =>
      match entries !! AdminsPolicyKey with
      | None => Returns cg (Some "no Admins policy defined")
      | Some _ =>
          match entries !! ReadersPolicyKey with
          | None => Returns cg (Some "no Readers policy defined")
          | Some _ =>
              match entries !! WritersPolicyKey with
              | None => Returns cg (Some "no Writers policy defined")
              | Some _ => addPolicies_range cg modPolicy (range policyMap)
              end
          end
      end
  end.

(** removePolicy removes an existing policy from an group key
    organization. *)
Definition removePolicy (configGroup : option cb.ConfigGroup) (policyName : string)
    (policies : gmap string Policy) : outcome (option cb.ConfigGroup) :=
  match policies !! policyName with
  | None =>
      Returns configGroup (Some ("could not find policy '" +:+ policyName +:+ "'"))
  | Some _ =>
      match configGroup with
      | None => Panics
      | Some g =>
          Returns (Some (cb.Build_ConfigGroup (cb.Groups g)
                           (delete policyName <$> cb.Policies g))) None
      end
  end.

(** *** Mutators on a whole config

    The Go functions reach a group through pointers held in the tree and
    mutate it in place; here the tree is rebuilt around the group's new
    state.  The tree is taken to share no group between two paths. *)

Definition set_group (key : string) (g parent : cb.ConfigGroup) : cb.ConfigGroup :=
  cb.Build_ConfigGroup (<[key := g]> (cb.Groups parent)) (cb.Policies parent).

(** [config.ChannelGroup] dereferenced, then [f] on the channel group. *)
Definition in_channel (config : cb.Config)
    (f : cb.ConfigGroup -> outcome cb.ConfigGroup) : outcome cb.Config :=
  match cb.ChannelGroup config with
  | None => Panics
  | Some channelGroup =>
      match f channelGroup with
      | Panics => Panics
      | Returns channelGroup' err =>
          Returns {| cb.ChannelGroup := Some channelGroup' |} err
      end
  end.

(** [parent.Groups[key]] dereferenced (a missing key gives a nil pointer,
    whose dereference panics), then [f] on that child. *)
Definition in_child (key : string) (f : cb.ConfigGroup -> outcome cb.ConfigGroup)
    (parent : cb.ConfigGroup) : outcome cb.ConfigGroup :=
  match cb.Groups parent !! key with
  | None => Panics
  | Some g =>
      match f g with
      | Panics => Panics
      | Returns g' err => Returns (set_group key g' parent) err
      end
  end.

(** [op] on the pointer [parent.Groups[key]], nil when the key is missing. *)
Definition on_child (key : string)
    (op : option cb.ConfigGroup -> outcome (option cb.ConfigGroup))
    (parent : cb.ConfigGroup) : outcome cb.ConfigGroup :=
  match op (cb.Groups parent !! key) with
  | Panics => Panics
  | Returns (Some g') err => Returns (set_group key g' parent) err
  | Returns None err => Returns parent err
  end.

Definition wrap_error {S : Type} (wrap : string -> string) (o : outcome S)
  : outcome S :=
  match o with
  | Panics => Panics
  | Returns s err => Returns s (wrap <$> err)
  end.

(** AddApplicationPolicy modifies an existing application policy
    configuration. *)
Definition AddApplicationPolicy (config : cb.Config) (modPolicy policyName : string)
    (policy : Policy) : outcome cb.Config :=
  wrap_error (fun err => "failed to add policy '" +:+ policyName +:+ "': " +:+ err)
    (in_channel config
       (on_child ApplicationGroupKey
          (fun cg => addPolicy cg modPolicy policyName policy))).

(** RemoveApplicationPolicy removes an existing application policy
    configuration. *)
Definition RemoveApplicationPolicy (config : cb.Config) (policyName : string)
  : outcome cb.Config :=
  match GetPoliciesForApplication config with
  | Panic => Panics
  | Err err => Returns config (Some err)
  | Ok policies =>
      in_channel config
        (on_child ApplicationGroupKey
           (fun cg => removePolicy cg policyName policies))
  end.

(** AddApplicationOrgPolicy modifies an existing organization in a
    application configuration's policies. *)
Definition AddApplicationOrgPolicy (config : cb.Config)
    (orgName modPolicy policyName : string) (policy : Policy) : outcome cb.Config :=
  wrap_error (fun err => "failed to add policy '" +:+ policyName +:+ "': " +:+ err)
    (in_channel config
       (in_child ApplicationGroupKey
          (on_child orgName
             (fun cg => addPolicy cg modPolicy policyName policy)))).

(** RemoveApplicationOrgPolicy removes an existing policy from an
    application organization. *)
Definition RemoveApplicationOrgPolicy (config : cb.Config)
    (orgName policyName : string) : outcome cb.Config :=
  match GetPoliciesForApplicationOrg config orgName with
  | Panic => Panics
  | Err err => Returns config (Some err)
  | Ok policies =>
      in_channel config
        (in_child ApplicationGroupKey
           (on_child orgName
              (fun cg => removePolicy cg policyName policies)))
  end.

(** AddConsortiumOrgPolicy modifies an existing organization in a
    consortiums configuration's policies. *)
Definition AddConsortiumOrgPolicy (config : cb.Config)
    (consortiumName orgName policyName : string) (policy : Policy)
  : outcome cb.Config :=
  let groupKey := ConsortiumsGroupKey in
  in_channel config
    (in_child groupKey (fun consortiums =>
       match cb.Groups consortiums !! consortiumName with
       | None =>
           Returns consortiums
             (Some ("consortium '" +:+ consortiumName
                    +:+ "' does not exist in channel config"))
       | Some consortiumGroup =>
           match cb.Groups consortiumGroup !! orgName with
           | None =>
               Returns consortiums
                 (Some (Strings.ToLower groupKey +:+ " org '" +:+ orgName
                        +:+ "' does not exist in channel config"))
           | Some orgGroup =>
               match addPolicy (Some orgGroup) AdminsPolicyKey policyName policy with
               | Panics => Panics
               | Returns orgGroup' err =>
                   Returns
                     (set_group consortiumName
                        (set_group orgName (default orgGroup orgGroup')
                           consortiumGroup) consortiums)
                     ((fun err => "failed to add policy '" +:+ policyName
                                  +:+ "' to consortium org '" +:+ orgName
                                  +:+ "': " +:+ err) <$> err)
               end
           end
       end)).

(** RemoveConsortiumOrgPolicy removes an existing policy from an
    consortiums organization.  The removed policy must exist however will
    not error if it does not exist in configuration. *)
Definition RemoveConsortiumOrgPolicy (config : cb.Config)
    (consortiumName orgName policyName : string) : outcome cb.Config :=
  let groupKey := ConsortiumsGroupKey in
  in_channel config
    (in_child groupKey (fun consortiums =>
       match cb.Groups consortiums !! consortiumName with
       | None =>
           Returns consortiums
             (Some ("consortium '" +:+ consortiumName
                    +:+ "' does not exist in channel config"))
       | Some consortiumGroup =>
           match cb.Groups consortiumGroup !! orgName with
           | None =>
               Returns consortiums
                 (Some (Strings.ToLower groupKey +:+ " org '" +:+ orgName
                        +:+ "' does not exist in channel config"))
           | Some orgGroup =>
               Returns
                 (set_group consortiumName
                    (set_group orgName
                       (cb.Build_ConfigGroup (cb.Groups orgGroup)
                          (delete policyName <$> cb.Policies orgGroup))
                       consortiumGroup) consortiums)
                 None
           end
       end)).

(** AddOrdererPolicy modifies an existing orderer policy configuration. *)
Definition AddOrdererPolicy (config : cb.Config) (modPolicy policyName : string)
    (policy : Policy) : outcome cb.Config :=
  wrap_error (fun err => "failed to add policy '" +:+ policyName +:+ "': " +:+ err)
    (in_channel config
       (on_child OrdererGroupKey
          (fun cg => addPolicy cg modPolicy policyName policy))).

(** RemoveOrdererPolicy removes an existing orderer policy configuration.
    The policy must exist in the config. *)
Definition RemoveOrdererPolicy (config : cb.Config) (policyName : string)
  : outcome cb.Config :=
  if String.eqb policyName BlockValidationPolicyKey then
    Returns config (Some "BlockValidation policy must be defined")
  else
    match GetPoliciesForOrderer config with
    | Panic => Panics
    | Err err => Returns config (Some err)
    | Ok policies =>
        in_channel config
          (on_child OrdererGroupKey
             (fun cg => removePolicy cg policyName policies))
    end.

(** AddOrdererOrgPolicy modifies an existing organization in a orderer
    configuration's policies. *)
Definition AddOrdererOrgPolicy (config : cb.Config)
    (orgName modPolicy policyName : string) (policy : Policy) : outcome cb.Config :=
  in_channel config
    (in_child OrdererGroupKey
       (on_child orgName
          (fun cg => addPolicy cg modPolicy policyName policy))).

(** RemoveOrdererOrgPolicy removes an existing policy from an orderer
    organization. *)
Definition RemoveOrdererOrgPolicy (config : cb.Config)
    (orgName policyName : string) : outcome cb.Config :=
  match GetPoliciesForOrdererOrg config orgName with
  | Panic => Panics
  | Err err => Returns config (Some err)
  | Ok policies =>
      in_channel config
        (in_child OrdererGroupKey
           (on_child orgName
              (fun cg => removePolicy cg policyName policies)))
  end.
End policies.

(** ** Definitions used to state the properties *)

(** The children of a node formatted in their stored order; the first child
    that fails decides the result. *)
Definition formatRules (Rules : list cb.SignaturePolicy) (IDs : list string)
  : result (list string) :=
  mapM (fun rule => signaturePolicyToString rule IDs) Rules.

(** The gate the formatter picks for threshold [N] over [Rules]: the two
    tests are applied in the source's order, the later one overriding. *)
Definition gateOf (N : Z) (Rules : list cb.SignaturePolicy) : string :=
  let gate := policydsl.GateOutOf in
  let gate := if N =? 1 then policydsl.GateOr else gate in
  if N =? int32 (len Rules) then policydsl.GateAnd else gate.

(** [KEYWORD(arg1, arg2, ...)]. *)
Definition gateCall (keyword : string) (args : list string) : string :=
  keyword +:+ "(" +:+ Strings.Join args ", " +:+ ")".

Section statement_helpers.
Context {E : Externals}.

(** What one iteration of [getPolicies] computes for a stored entry. *)
Definition convertPolicy (policy : cb.ConfigPolicy) : result Policy :=
  pol ← deref (cb.cp_Policy policy);
  if cb.p_Type pol =? cb.Policy_IMPLICIT_META then
    imp ← unmarshal_ImplicitMetaPolicy (cb.p_Value pol);
    rule ← implicitMetaToString imp;
    Ok {| Type_ := ImplicitMetaPolicyType; Rule := rule |}
  else if cb.p_Type pol =? cb.Policy_SIGNATURE then
    sp ← unmarshal_SignaturePolicyEnvelope (cb.p_Value pol);
    rule ← signatureMetaToString sp;
    Ok {| Type_ := SignaturePolicyType; Rule := rule |}
  else Err ("unknown policy type: " +:+ strconv.Itoa (cb.p_Type pol)).


(** The stored entry [addPolicy] builds for a policy before it writes it, or
    the error it returns instead. *)
Definition encodePolicy (modPolicy : string) (policy : Policy)
  : result cb.ConfigPolicy :=
  if String.eqb (Type_ policy) ImplicitMetaPolicyType then
    match implicitMetaFromString (Rule policy) with
    | Panic => Panic
    | Err err =>
        Err ("invalid implicit meta policy rule: '" +:+ Rule policy +:+ "': " +:+ err)
    | Ok imp =>
        match marshal_ImplicitMetaPolicy imp with
        | Panic => Panic
        | Err err => Err ("marshaling implicit meta policy: " +:+ err)
        | Ok value =>
            Ok {| cb.cp_ModPolicy := modPolicy;
                  cb.cp_Policy :=
                    Some {| cb.p_Type := cb.Policy_IMPLICIT_META;
                            cb.p_Value := value |} |}
        end
    end
  else if String.eqb (Type_ policy) SignaturePolicyType then
    match policydsl_FromString (Rule policy) with
    | Panic => Panic
    | Err err =>
        Err ("invalid signature policy rule: '" +:+ Rule policy +:+ "': " +:+ err)
    | Ok sp =>
        match marshal_SignaturePolicyEnvelope sp with
        | Panic => Panic
        | Err err => Err ("marshaling signature policy: " +:+ err)
        | Ok value =>
            Ok {| cb.cp_ModPolicy := modPolicy;
                  cb.cp_Policy :=
                    Some {| cb.p_Type := cb.Policy_SIGNATURE;
                            cb.p_Value := value |} |}
        end
    end
  else Err ("unknown policy type: " +:+ Type_ policy).



(** The batch carries the three required names. *)
Definition has_required (batch : gmap string Policy) : Prop :=
  is_Some (batch !! AdminsPolicyKey) /\ is_Some (batch !! ReadersPolicyKey)
  /\ is_Some (batch !! WritersPolicyKey).
End statement_helpers.

(** The group [g] with its policy map replaced. *)
Definition with_policies (g : cb.ConfigGroup)
    (policies : option (gmap string cb.ConfigPolicy)) : cb.ConfigGroup :=
  cb.Build_ConfigGroup (cb.Groups g) policies.

(** The batch is nil or lacks one of the three required names. *)
Definition lacks_required (policyMap : option (gmap string Policy)) : Prop :=
  match policyMap with
  | None => True
  | Some batch =>
      batch !! AdminsPolicyKey = None \/ batch !! ReadersPolicyKey = None
      \/ batch !! WritersPolicyKey = None
  end.

(** The consortium org reached from the root by the fixed key path, if every
    segment is present. *)
Definition consortium_org (config : cb.Config) (consortiumName orgName : string)
  : option cb.ConfigGroup :=
  channelGroup ← cb.ChannelGroup config;
  consortiums ← cb.Groups channelGroup !! ConsortiumsGroupKey;
  consortium ← cb.Groups consortiums !! consortiumName;
  cb.Groups consortium !! orgName.

(** ** A sample environment and sample data for concrete runs

    A small stand-in for the collaborators: a one-byte-tag codec for the
    implicit-meta and role messages, a compiler for [QUANTIFIER subPolicy]
    rules, no signature-rule compiler, and maps visited in the order stdpp
    lists them. *)

Definition sample_parse_error : string :=
  "proto: cannot parse invalid wire-format data".

Definition sample_unmarshal_ImplicitMetaPolicy (b : list byte)
  : result cb.ImplicitMetaPolicy :=
  match b with
  | [] => Ok {| cb.imp_SubPolicy := ""; cb.imp_Rule := 0 |}
  | xff :: _ => Err sample_parse_error
  | tag :: rest =>
      Ok {| cb.imp_SubPolicy := string_of_list_byte rest;
            cb.imp_Rule := Z.of_N (Byte.to_N tag) |}
  end.

Definition sample_marshal_ImplicitMetaPolicy (imp : cb.ImplicitMetaPolicy)
  : result (list byte) :=
  match Byte.of_N (Z.to_N (cb.imp_Rule imp)) with
  | Some tag => Ok (tag :: list_byte_of_string (cb.imp_SubPolicy imp))
  | None => Err "proto: rule out of range"
  end.

Definition sample_unmarshal_MSPRole (b : list byte) : result mb.MSPRole :=
  match b with
  | [] => Ok {| mb.MspIdentifier := ""; mb.Role := 0 |}
  | xff :: _ => Err sample_parse_error
  | tag :: rest =>
      Ok {| mb.MspIdentifier := string_of_list_byte rest;
            mb.Role := Z.of_N (Byte.to_N tag) |}
  end.

(** The empty payload decodes to the zero message, whose rule is nil. *)
Definition sample_unmarshal_SignaturePolicyEnvelope (b : list byte)
  : result cb.SignaturePolicyEnvelope :=
  match b with
  | [] => Ok {| cb.sp_Rule := cb.NilPolicy; cb.sp_Identities := [] |}
  | _ => Err sample_parse_error
  end.

Definition sample_implicitMetaFromString (input : string)
  : result cb.ImplicitMetaPolicy :=
  match String.index 0 " " input with
  | None => Err "expected two space separated tokens, but got 1"
  | Some i =>
      let quantifier := substring 0 i input in
      let subPolicy := substring (S i) (String.length input - S i) input in
      if String.eqb quantifier "ANY" then
        Ok {| cb.imp_SubPolicy := subPolicy; cb.imp_Rule := cb.ImplicitMetaPolicy_ANY |}
      else if String.eqb quantifier "ALL" then
        Ok {| cb.imp_SubPolicy := subPolicy; cb.imp_Rule := cb.ImplicitMetaPolicy_ALL |}
      else if String.eqb quantifier "MAJORITY" then
        Ok {| cb.imp_SubPolicy := subPolicy;
              cb.imp_Rule := cb.ImplicitMetaPolicy_MAJORITY |}
      else
        Err ("unknown rule type '" +:+ quantifier
             +:+ "', expected ALL, ANY, or MAJORITY")
  end.

Definition sample_externals : Externals := {|
  unmarshal_ImplicitMetaPolicy := sample_unmarshal_ImplicitMetaPolicy;
  unmarshal_SignaturePolicyEnvelope := sample_unmarshal_SignaturePolicyEnvelope;
  unmarshal_MSPRole := sample_unmarshal_MSPRole;
  marshal_ImplicitMetaPolicy := sample_marshal_ImplicitMetaPolicy;
  marshal_SignaturePolicyEnvelope := fun _ => Err "proto: not supported";
  implicitMetaFromString := sample_implicitMetaFromString;
  policydsl_FromString := fun _ => Err "unrecognized token in policy string";
  range_order := fun _ l => l
|}.

Definition empty_group : cb.ConfigGroup :=
  cb.Build_ConfigGroup ∅ (Some ∅).


(** A stored map with one convertible entry and one entry of the undefined
    kind-tag 7. *)
Definition sample_stored : gmap string cb.ConfigPolicy :=
  <[AdminsPolicyKey :=
      {| cb.cp_Policy := Some {| cb.p_Type := 7; cb.p_Value := [] |};
         cb.cp_ModPolicy := AdminsPolicyKey |}]>
  (<[ReadersPolicyKey :=
       {| cb.cp_Policy :=
            Some {| cb.p_Type := cb.Policy_IMPLICIT_META;
                    cb.p_Value := x00 :: list_byte_of_string "Readers" |};
          cb.cp_ModPolicy := AdminsPolicyKey |}]> ∅).

(** A batch without [Writers]. *)
Definition sample_batch_without_writers : gmap string Policy :=
  <[AdminsPolicyKey := {| Type_ := ImplicitMetaPolicyType; Rule := "MAJORITY Admins" |}]>
  (<[ReadersPolicyKey := {| Type_ := ImplicitMetaPolicyType; Rule := "ANY Readers" |}]>
   ∅).

(** What installing [Writers] and [Admins] of [sample_batch] stores. *)
Definition sample_writers_stored : cb.ConfigPolicy :=
  {| cb.cp_Policy :=
       Some {| cb.p_Type := cb.Policy_IMPLICIT_META;
               cb.p_Value := x00 :: list_byte_of_string "Writers" |};
     cb.cp_ModPolicy := AdminsPolicyKey |}.

Definition sample_admins_stored : cb.ConfigPolicy :=
  {| cb.cp_Policy :=
       Some {| cb.p_Type := cb.Policy_IMPLICIT_META;
               cb.p_Value := x02 :: list_byte_of_string "Admins" |};
     cb.cp_ModPolicy := AdminsPolicyKey |}.


(** A config with a Consortiums group that holds no consortium, and a config
    whose channel group has no child at all. *)
Definition config_without_consortium : cb.Config :=
  {| cb.ChannelGroup :=
       Some (cb.Build_ConfigGroup
               {[ ConsortiumsGroupKey := cb.Build_ConfigGroup ∅ None ]} None) |}.

Definition config_without_application : cb.Config :=
  {| cb.ChannelGroup := Some (cb.Build_ConfigGroup ∅ None) |}.

(** An org group holding the entries of [sample_stored], inside a consortium
    inside the Consortiums group. *)
Definition sample_org : cb.ConfigGroup :=
  cb.Build_ConfigGroup ∅ (Some sample_stored).

Definition sample_config : cb.Config :=
  {| cb.ChannelGroup :=
       Some (cb.Build_ConfigGroup
               {[ ConsortiumsGroupKey :=
                    cb.Build_ConfigGroup
                      {[ "SampleConsortium" :=
                           cb.Build_ConfigGroup {[ "Org1" := sample_org ]} None ]}
                      None ]}
               None) |}.

(** An extracted view naming [Readers] only. *)
Definition sample_view : gmap string Policy :=
  {[ ReadersPolicyKey := {| Type_ := ImplicitMetaPolicyType; Rule := "ANY Readers" |} ]}.

(** The trees the formatter renders: no nil pointer, no unset oneof, and
    every [SignedBy] index within an identity list of length [n]. *)
Fixpoint well_formed (n : Z) (sig : cb.SignaturePolicy) : bool :=
  match sig with
  | cb.NilPolicy => false
  | cb.TypeUnset => false
  | cb.SignedBy i => (0 <=? i) && (i <? n)
  | cb.NOutOf _ Rules => forallb (well_formed n) Rules
  end.

(** The group under [key] in the channel group, and the org under it. *)
Definition top_group (config : cb.Config) (key : string) : option cb.ConfigGroup :=
  channelGroup ← cb.ChannelGroup config;
  cb.Groups channelGroup !! key.

Definition org_group (config : cb.Config) (key orgName : string)
  : option cb.ConfigGroup :=
  group ← top_group config key;
  cb.Groups group !! orgName.

(** A batch with the three required names, all of them rules the sample
    compiler accepts. *)
Definition sample_batch_valid : gmap string Policy :=
  <[AdminsPolicyKey := {| Type_ := ImplicitMetaPolicyType; Rule := "MAJORITY Admins" |}]>
  (<[ReadersPolicyKey := {| Type_ := ImplicitMetaPolicyType; Rule := "ANY Readers" |}]>
  (<[WritersPolicyKey := {| Type_ := ImplicitMetaPolicyType; Rule := "ANY Writers" |}]>
   ∅)).

(** Stored policies that the sample environment extracts, their extracted
    view, and a config with an application and an orderer group, each with
    these policies and with one org holding them too. *)
Definition sample_readers_stored : cb.ConfigPolicy :=
  {| cb.cp_Policy :=
       Some {| cb.p_Type := cb.Policy_IMPLICIT_META;
               cb.p_Value := x00 :: list_byte_of_string "Readers" |};
     cb.cp_ModPolicy := AdminsPolicyKey |}.

Definition sample_good_policies : gmap string cb.ConfigPolicy :=
  <[ReadersPolicyKey := sample_readers_stored]>
  (<[WritersPolicyKey := sample_writers_stored]> ∅).

Definition sample_good_view : gmap string Policy :=
  <[ReadersPolicyKey := {| Type_ := ImplicitMetaPolicyType; Rule := "ANY Readers" |}]>
  (<[WritersPolicyKey := {| Type_ := ImplicitMetaPolicyType; Rule := "ANY Writers" |}]>
   ∅).

Definition sample_good_org : cb.ConfigGroup :=
  cb.Build_ConfigGroup ∅ (Some sample_good_policies).

Definition sample_channel_group : cb.ConfigGroup :=
  cb.Build_ConfigGroup
    (<[ApplicationGroupKey :=
         cb.Build_ConfigGroup {[ "Org1" := sample_good_org ]}
           (Some sample_good_policies)]>
     (<[OrdererGroupKey :=
          cb.Build_ConfigGroup {[ "OrdererOrg" := sample_good_org ]}
            (Some sample_good_policies)]> ∅))
    None.

Definition sample_channel : cb.Config :=
  {| cb.ChannelGroup := Some sample_channel_group |}.




(** * Properties *)

(** ** The signature-tree formatter *)

(** Two runs of the formatters in the sample environment. *)
Example signatureMetaToString_two_admins :
  signatureMetaToString (E := sample_externals)
    {| cb.sp_Rule := cb.NOutOf 2 [cb.SignedBy 0; cb.SignedBy 1];
       cb.sp_Identities :=
         [{| mb.PrincipalClassification := mb.MSPPrincipal_ROLE;
             mb.Principal := x01 :: list_byte_of_string "Org1MSP" |};
          {| mb.PrincipalClassification := mb.MSPPrincipal_ROLE;
             mb.Principal := x01 :: list_byte_of_string "Org2MSP" |}] |}
  = Ok "AND('Org1MSP.admin', 'Org2MSP.admin')".
Proof. reflexivity. Qed.

Example implicitMetaToString_majority :
  implicitMetaToString
    {| cb.imp_SubPolicy := "Admins"; cb.imp_Rule := cb.ImplicitMetaPolicy_MAJORITY |}
  = Ok "MAJORITY Admins"
  /\ implicitMetaToString {| cb.imp_SubPolicy := "Admins"; cb.imp_Rule := 9 |}
     = Err "unknown implicit meta policy rule type 9".
Proof. split; reflexivity. Qed.

Lemma int32_small (z : Z) : - 2 ^ 31 <= z < 2 ^ 31 -> int32 z = z.
Proof.
  intros Hz. unfold int32.
  rewrite Z.mod_small by lia. lia.
Qed.

(** The loop over the children, started with [policies] already collected,
    appends the children's renderings in order. *)
Lemma subpolicies_formatRules (IDs : list string) (Rules : list cb.SignaturePolicy) :
  forall policies : list string,
    (fix subpolicies (rules : list cb.SignaturePolicy) (policies : list string)
       : result (list string) :=
       match rules with
       | [] => Ok policies
       | rule :: rest =>
           subPolicy ← signaturePolicyToString rule IDs;
           subpolicies rest (policies ++ [subPolicy])%list
       end) Rules policies
    = (subs ← formatRules Rules IDs; Ok (policies ++ subs)%list).
Proof.
  induction Rules as [|rule rest IH]; intros policies.
  - cbn. now rewrite app_nil_r.
  - cbn. destruct (signaturePolicyToString rule IDs) as [sub|err|]; cbn; try reflexivity.
    rewrite IH. unfold formatRules.
    destruct (mapM _ rest) as [subs|err|]; cbn; try reflexivity.
    now rewrite <- app_assoc.
Qed.

Lemma signaturePolicyToString_NOutOf (N : Z) (Rules : list cb.SignaturePolicy)
    (IDs : list string) :
  signaturePolicyToString (cb.NOutOf N Rules) IDs
  = (subs ← formatRules Rules IDs;
     Ok (gateCall (Strings.ToUpper (gateOf N Rules))
           ((if String.eqb (gateOf N Rules) policydsl.GateOutOf
             then [strconv.Itoa N] else []) ++ subs)%list)).
Proof.
  cbn [signaturePolicyToString]. fold (gateOf N Rules).
  rewrite subpolicies_formatRules.
  destruct (formatRules Rules IDs); reflexivity.
Qed.

Lemma prefix_append (s t : string) : String.prefix s (s +:+ t) = true.
Proof.
  induction s as [|c s IH].
  - destruct t; reflexivity.
  - change (String c s +:+ t) with (String c (s +:+ t)).
    cbn [String.prefix]. destruct (ascii_dec c c); [exact IH | congruence].
Qed.

(** C1, as the code has it: a node with threshold 1 whose number of children
    (as the int32 the source compares with) is not 1 is rendered with the OR
    keyword, [OR(child1, child2, ...)], whenever its children render; the
    formatted text then starts with [OR(].  The test [N == len(children)]
    comes after the test [N == 1] and overrides it: a node with threshold 1
    and one child is rendered with AND. *)
Theorem signaturePolicyToString_threshold_one_OR
    (Rules : list cb.SignaturePolicy) (IDs : list string) :
  (int32 (len Rules) <> 1 ->
   signaturePolicyToString (cb.NOutOf 1 Rules) IDs
   = (subs ← formatRules Rules IDs; Ok (gateCall "OR" subs))
   /\ forall text : string,
        signaturePolicyToString (cb.NOutOf 1 Rules) IDs = Ok text ->
        String.prefix "OR(" text = true)
  /\ (int32 (len Rules) = 1 ->
      signaturePolicyToString (cb.NOutOf 1 Rules) IDs
      = (subs ← formatRules Rules IDs; Ok (gateCall "AND" subs))).
Proof.
  split.
  - intros Hlen.
    assert (Hgate : gateOf 1 Rules = policydsl.GateOr).
    { unfold gateOf. destruct (Z.eqb_spec 1 (int32 (len Rules))) as [Heq|_].
      - congruence.
      - reflexivity. }
    assert (Heq : signaturePolicyToString (cb.NOutOf 1 Rules) IDs
                  = (subs ← formatRules Rules IDs; Ok (gateCall "OR" subs))).
    { rewrite signaturePolicyToString_NOutOf, Hgate. reflexivity. }
    split; [exact Heq|].
    intros text. rewrite Heq.
    destruct (formatRules Rules IDs) as [subs| |]; cbn; try discriminate.
    intros [= <-].
    change (gateCall "OR" subs) with ("OR(" +:+ (Strings.Join subs ", " +:+ ")")).
    apply prefix_append.
  - intros Hlen.
    assert (Hgate : gateOf 1 Rules = policydsl.GateAnd).
    { unfold gateOf. rewrite Hlen. reflexivity. }
    rewrite signaturePolicyToString_NOutOf, Hgate. reflexivity.
Qed.

Lemma signaturePolicyToString_threshold_one_OR_witness :
  int32 (len [cb.SignedBy 0; cb.SignedBy 1]) <> 1
  /\ signaturePolicyToString (cb.NOutOf 1 [cb.SignedBy 0; cb.SignedBy 1])
       ["'Org1MSP.member'"; "'Org2MSP.member'"]
     = Ok "OR('Org1MSP.member', 'Org2MSP.member')".
Proof.
  assert (Hlen : int32 (len [cb.SignedBy 0; cb.SignedBy 1]) <> 1)
    by (vm_compute; discriminate).
  split; [exact Hlen|].
  exact (proj1 (proj1 (signaturePolicyToString_threshold_one_OR
                         [cb.SignedBy 0; cb.SignedBy 1]
                         ["'Org1MSP.member'"; "'Org2MSP.member'"]) Hlen)).
Defined.

(** C1, as the claim states it, fails on a node with threshold 1 and exactly
    one child: both tests hold, the later one wins, and the node is rendered
    with AND. *)
Lemma signaturePolicyToString_one_of_one_is_AND :
  signaturePolicyToString (cb.NOutOf 1 [cb.SignedBy 0]) ["'Org1MSP.member'"]
  = Ok "AND('Org1MSP.member')"
  /\ String.prefix "OR(" "AND('Org1MSP.member')" = false.
Proof. split; reflexivity. Qed.

(** C4: for a node whose number of children fits the int32 the source
    compares the threshold with: with more than one child and the threshold
    equal to the number of children, the node is rendered
    [AND(child1, child2, ...)]; with 1 < N < len(children) it is rendered
    [OUTOF(N, child1, child2, ...)], the decimal threshold first and the
    children's renderings after it in their stored order, joined by a comma
    and a space.  (Both when the children render; otherwise the first failing
    child decides the result.) *)
Theorem signaturePolicyToString_AND_OUTOF
    (N : Z) (Rules : list cb.SignaturePolicy) (IDs : list string) :
  len Rules < 2 ^ 31 ->
  (1 < len Rules -> N = len Rules ->
   signaturePolicyToString (cb.NOutOf N Rules) IDs
   = (subs ← formatRules Rules IDs; Ok (gateCall "AND" subs))
   /\ forall text : string,
        signaturePolicyToString (cb.NOutOf N Rules) IDs = Ok text ->
        String.prefix "AND(" text = true)
  /\ (1 < N < len Rules ->
      signaturePolicyToString (cb.NOutOf N Rules) IDs
      = (subs ← formatRules Rules IDs;
         Ok (gateCall "OUTOF" (strconv.Itoa N :: subs)))
      /\ forall text : string,
           signaturePolicyToString (cb.NOutOf N Rules) IDs = Ok text ->
           String.prefix "OUTOF(" text = true).
Proof.
  intros Hfits.
  assert (Hlen : int32 (len Rules) = len Rules).
  { apply int32_small. unfold len in *. lia. }
  split.
  - intros Hmany HN.
    assert (Hgate : gateOf N Rules = policydsl.GateAnd).
    { unfold gateOf. rewrite Hlen, HN, Z.eqb_refl. reflexivity. }
    assert (Heq : signaturePolicyToString (cb.NOutOf N Rules) IDs
                  = (subs ← formatRules Rules IDs; Ok (gateCall "AND" subs))).
    { rewrite signaturePolicyToString_NOutOf, Hgate. reflexivity. }
    split; [exact Heq|].
    intros text. rewrite Heq.
    destruct (formatRules Rules IDs) as [subs| |]; cbn; try discriminate.
    intros [= <-].
    change (gateCall "AND" subs) with ("AND(" +:+ (Strings.Join subs ", " +:+ ")")).
    apply prefix_append.
  - intros [Hlow Hhigh].
    assert (Hgate : gateOf N Rules = policydsl.GateOutOf).
    { unfold gateOf. rewrite Hlen.
      destruct (Z.eqb_spec N 1) as [->|_]; [lia|].
      destruct (Z.eqb_spec N (len Rules)) as [->|_]; [lia|]. reflexivity. }
    assert (Heq : signaturePolicyToString (cb.NOutOf N Rules) IDs
                  = (subs ← formatRules Rules IDs;
                     Ok (gateCall "OUTOF" (strconv.Itoa N :: subs)))).
    { rewrite signaturePolicyToString_NOutOf, Hgate. reflexivity. }
    split; [exact Heq|].
    intros text. rewrite Heq.
    destruct (formatRules Rules IDs) as [subs| |]; cbn; try discriminate.
    intros [= <-].
    change (gateCall "OUTOF" (strconv.Itoa N :: subs))
      with ("OUTOF(" +:+ (Strings.Join (strconv.Itoa N :: subs) ", " +:+ ")")).
    apply prefix_append.
Qed.

Lemma signaturePolicyToString_AND_OUTOF_witness :
  signaturePolicyToString (cb.NOutOf 2 [cb.SignedBy 0; cb.SignedBy 1])
    ["'Org1MSP.admin'"; "'Org2MSP.admin'"]
  = Ok "AND('Org1MSP.admin', 'Org2MSP.admin')"
  /\ signaturePolicyToString
       (cb.NOutOf 2 [cb.SignedBy 0; cb.SignedBy 1; cb.SignedBy 0])
       ["'Org1MSP.admin'"; "'Org2MSP.admin'"]
     = Ok "OUTOF(2, 'Org1MSP.admin', 'Org2MSP.admin', 'Org1MSP.admin')".
Proof.
  split.
  - refine (proj1 (proj1 (signaturePolicyToString_AND_OUTOF 2
                            [cb.SignedBy 0; cb.SignedBy 1]
                            ["'Org1MSP.admin'"; "'Org2MSP.admin'"] _) _ _));
      vm_compute; reflexivity.
  - refine (proj1 (proj2 (signaturePolicyToString_AND_OUTOF 2
                            [cb.SignedBy 0; cb.SignedBy 1; cb.SignedBy 0]
                            ["'Org1MSP.admin'"; "'Org2MSP.admin'"] _) _));
      vm_compute; [reflexivity | split; reflexivity].
Defined.

(** ** The principal formatter *)

Section principal_formatter.
Context {E : Externals}.

(** C5: a ROLE principal whose payload decodes is rendered as the
    single-quoted ['<mspID>.<lowercased-role>'] with no error; a principal of
    classification ORGANIZATION_UNIT, IDENTITY, ANONYMITY or COMBINED is
    rendered as the empty string with no error; any other classification
    value gives the unknown-classification error, which carries the value. *)
Theorem mspPrincipalToString_by_classification (principal : mb.MSPPrincipal) :
  (forall role : mb.MSPRole,
     mb.PrincipalClassification principal = mb.MSPPrincipal_ROLE ->
     unmarshal_MSPRole (mb.Principal principal) = Ok role ->
     mspPrincipalToString principal
     = Ok ("'" +:+ mb.MspIdentifier role +:+ "."
           +:+ Strings.ToLower (mb.MSPRole_MSPRoleType_String (mb.Role role))
           +:+ "'"))
  /\ (mb.PrincipalClassification principal ∈
        [mb.MSPPrincipal_ORGANIZATION_UNIT; mb.MSPPrincipal_IDENTITY;
         mb.MSPPrincipal_ANONYMITY; mb.MSPPrincipal_COMBINED] ->
      mspPrincipalToString principal = Ok "")
  /\ (mb.PrincipalClassification principal ∉
        [mb.MSPPrincipal_ROLE; mb.MSPPrincipal_ORGANIZATION_UNIT;
         mb.MSPPrincipal_IDENTITY; mb.MSPPrincipal_ANONYMITY;
         mb.MSPPrincipal_COMBINED] ->
      mspPrincipalToString principal
      = Err ("unknown MSP principal classiciation "
             +:+ strconv.Itoa (mb.PrincipalClassification principal))).
Proof.
  unfold mspPrincipalToString.
  destruct principal as [c payload]; cbn [mb.PrincipalClassification mb.Principal].
  split; [|split].
  - intros role -> Hrole. cbn. rewrite Hrole. reflexivity.
  - intros Hin. repeat (apply elem_of_cons in Hin as [->|Hin]; [reflexivity|]).
    now apply elem_of_nil in Hin.
  - intros Hout.
    repeat (rewrite not_elem_of_cons in Hout; destruct Hout as [?Hne Hout]).
    unfold mb.MSPPrincipal_Classification_String.
    cbn [EnumName].
    repeat match goal with
           | Hne : c <> _ |- _ => apply Z.eqb_neq in Hne; rewrite !Hne; clear Hne
           end.
    reflexivity.
Qed.
End principal_formatter.

Lemma mspPrincipalToString_by_classification_witness :
  mspPrincipalToString (E := sample_externals)
    {| mb.PrincipalClassification := mb.MSPPrincipal_ROLE;
       mb.Principal := x01 :: list_byte_of_string "Org1MSP" |}
  = Ok "'Org1MSP.admin'"
  /\ mspPrincipalToString (E := sample_externals)
       {| mb.PrincipalClassification := mb.MSPPrincipal_ORGANIZATION_UNIT;
          mb.Principal := [] |}
     = Ok ""
  /\ mspPrincipalToString (E := sample_externals)
       {| mb.PrincipalClassification := 7; mb.Principal := [] |}
     = Err "unknown MSP principal classiciation 7".
Proof.
  split; [|split].
  - exact (proj1 (mspPrincipalToString_by_classification (E := sample_externals)
                    {| mb.PrincipalClassification := mb.MSPPrincipal_ROLE;
                       mb.Principal := x01 :: list_byte_of_string "Org1MSP" |})
             {| mb.MspIdentifier := "Org1MSP"; mb.Role := 1 |}
             eq_refl eq_refl).
  - apply (proj1 (proj2 (mspPrincipalToString_by_classification
                           (E := sample_externals)
                           {| mb.PrincipalClassification :=
                                mb.MSPPrincipal_ORGANIZATION_UNIT;
                              mb.Principal := [] |}))).
    apply list_elem_of_here.
  - apply (proj2 (proj2 (mspPrincipalToString_by_classification
                           (E := sample_externals)
                           {| mb.PrincipalClassification := 7;
                              mb.Principal := [] |}))).
    cbn. intros Hin.
    repeat (apply elem_of_cons in Hin as [Heq|Hin]; [discriminate Heq|]).
    now apply elem_of_nil in Hin.
Defined.

(** ** The policy extractor *)

Section extractor.
Context {E : Externals}.

Lemma getPolicies_range_cons (name : string) (policy : cb.ConfigPolicy)
    (rest : list (string * cb.ConfigPolicy)) (p : gmap string Policy) :
  getPolicies_range ((name, policy) :: rest) p
  = (pol ← convertPolicy policy; getPolicies_range rest (<[name := pol]> p)).
Proof.
  cbn [getPolicies_range]. unfold convertPolicy.
  destruct (deref (cb.cp_Policy policy)) as [pol| |]; cbn; try reflexivity.
  destruct (cb.p_Type pol =? cb.Policy_IMPLICIT_META).
  - destruct (unmarshal_ImplicitMetaPolicy _) as [imp| |]; cbn; try reflexivity.
    destruct (implicitMetaToString imp); reflexivity.
  - destruct (cb.p_Type pol =? cb.Policy_SIGNATURE); [|reflexivity].
    destruct (unmarshal_SignaturePolicyEnvelope _) as [sp| |]; cbn; try reflexivity.
    destruct (signatureMetaToString sp); reflexivity.
Qed.





End extractor.

Lemma sample_externals_lawful : range_lawful sample_externals.
Proof. intros V l. reflexivity. Qed.



(** ** The installer *)

Section installer.
Context {E : Externals}.

Lemma addPolicy_encodePolicy (cg : option cb.ConfigGroup)
    (modPolicy policyName : string) (policy : Policy) :
  addPolicy cg modPolicy policyName policy
  = match encodePolicy modPolicy policy with
    | Ok stored => store_policy cg policyName stored
    | Err err => Returns cg (Some err)
    | Panic => Panics
    end.
Proof.
  unfold addPolicy, encodePolicy.
  destruct (String.eqb (Type_ policy) ImplicitMetaPolicyType).
  - destruct (implicitMetaFromString _) as [imp| |]; try reflexivity.
    destruct (marshal_ImplicitMetaPolicy imp); reflexivity.
  - destruct (String.eqb (Type_ policy) SignaturePolicyType); [|reflexivity].
    destruct (policydsl_FromString _) as [sp| |]; try reflexivity.
    destruct (marshal_SignaturePolicyEnvelope sp); reflexivity.
Qed.

(** X11: a single install is all-or-nothing: when it returns an error the
    group is left as it was. *)
Lemma addPolicy_error_unchanged (cg cg' : option cb.ConfigGroup)
    (modPolicy policyName : string) (policy : Policy) (err : string) :
  addPolicy cg modPolicy policyName policy = Returns cg' (Some err) -> cg' = cg.
Proof.
  rewrite addPolicy_encodePolicy.
  destruct (encodePolicy modPolicy policy) as [stored|e|]; try discriminate.
  - unfold store_policy. destruct cg as [g|]; [|discriminate].
    destruct (cb.Policies g); discriminate.
  - now intros [= <- _].
Qed.


(** C7: a batch that is nil, or lacks an entry named Admins, Readers or
    Writers, is refused with an error before any mutation: the group is
    exactly as it was before the call. *)
Theorem addPolicies_missing_required_unchanged (cg : option cb.ConfigGroup)
    (policyMap : option (gmap string Policy)) (modPolicy : string) :
  lacks_required policyMap ->
  exists err : string,
    addPolicies cg policyMap modPolicy = Returns cg (Some err)
    /\ err ∈ ["no policies defined"; "no Admins policy defined";
              "no Readers policy defined"; "no Writers policy defined"].
Proof.
  intros Hlacks. unfold addPolicies.
  destruct policyMap as [batch|]; cbn in Hlacks.
  - destruct (batch !! AdminsPolicyKey) as [a|].
    + destruct (batch !! ReadersPolicyKey) as [r|].
      * destruct (batch !! WritersPolicyKey) as [w|].
        -- destruct Hlacks as [H|[H|H]]; discriminate H.
        -- eexists. split; [reflexivity|]. do 3 right. left.
      * eexists. split; [reflexivity|]. do 2 right. left.
    + eexists. split; [reflexivity|]. right. left.
  - eexists. split; [reflexivity|]. left.
Qed.
End installer.



Lemma addPolicies_missing_required_unchanged_witness :
  lacks_required (Some sample_batch_without_writers)
  /\ exists err : string,
       addPolicies (E := sample_externals) (Some empty_group)
         (Some sample_batch_without_writers) AdminsPolicyKey
       = Returns (Some empty_group) (Some err)
       /\ err ∈ ["no policies defined"; "no Admins policy defined";
                 "no Readers policy defined"; "no Writers policy defined"].
Proof.
  assert (Hlacks : lacks_required (Some sample_batch_without_writers))
    by (right; right; reflexivity).
  split; [exact Hlacks|].
  exact (addPolicies_missing_required_unchanged (E := sample_externals)
           (Some empty_group) (Some sample_batch_without_writers)
           AdminsPolicyKey Hlacks).
Defined.

(** ** The remover *)

Lemma with_policies_same (g : cb.ConfigGroup) : with_policies g (cb.Policies g) = g.
Proof. now destruct g. Qed.

Lemma delete_absent_policy (g : cb.ConfigGroup) (policyName : string) :
  (cb.Policies g ≫= lookup policyName) = None ->
  with_policies g (delete policyName <$> cb.Policies g) = g.
Proof.
  destruct g as [groups [policies|]]; cbn; intros Habsent; [|reflexivity].
  unfold with_policies. cbn. now rewrite delete_id.
Qed.

Lemma set_group_same (key : string) (g parent : cb.ConfigGroup) :
  cb.Groups parent !! key = Some g -> set_group key g parent = parent.
Proof.
  intros Hg. destruct parent as [groups policies]. unfold set_group. cbn in *.
  now rewrite insert_id.
Qed.

(** C9: the view decides.  When the name is absent from the extracted view,
    the remove primitive returns the could-not-find error and the group is
    not mutated; when it is present, the primitive returns no error and the
    live policy map is the former one with that name deleted (every other
    name is as it was). *)
Theorem removePolicy_view_decides (g : cb.ConfigGroup) (policyName : string)
    (policies : gmap string Policy) :
  (policies !! policyName = None ->
   removePolicy (Some g) policyName policies
   = Returns (Some g) (Some ("could not find policy '" +:+ policyName +:+ "'")))
  /\ (is_Some (policies !! policyName) ->
      exists g' : cb.ConfigGroup,
        removePolicy (Some g) policyName policies = Returns (Some g') None
        /\ cb.Groups g' = cb.Groups g
        /\ forall name : string,
             (cb.Policies g' ≫= lookup name)
             = if decide (name = policyName) then None
               else cb.Policies g ≫= lookup name).
Proof.
  unfold removePolicy. split.
  - intros ->. reflexivity.
  - intros [p ->]. eexists. split; [reflexivity|]. split; [reflexivity|].
    intros name. cbn. destruct (cb.Policies g) as [live|]; cbn.
    + rewrite lookup_delete. destruct (decide (policyName = name)) as [->|Hne].
      * now rewrite decide_True.
      * now rewrite decide_False by congruence.
    + now destruct (decide _).
Qed.

Lemma removePolicy_view_decides_witness :
  removePolicy (Some sample_org) WritersPolicyKey sample_view
  = Returns (Some sample_org) (Some "could not find policy 'Writers'")
  /\ exists g' : cb.ConfigGroup,
       removePolicy (Some sample_org) ReadersPolicyKey sample_view
       = Returns (Some g') None
       /\ cb.Groups g' = cb.Groups sample_org
       /\ forall name : string,
            (cb.Policies g' ≫= lookup name)
            = if decide (name = ReadersPolicyKey) then None
              else cb.Policies sample_org ≫= lookup name.
Proof.
  split.
  - exact (proj1 (removePolicy_view_decides sample_org WritersPolicyKey sample_view)
             eq_refl).
  - apply (proj2 (removePolicy_view_decides sample_org ReadersPolicyKey sample_view)).
    eexists. reflexivity.
Defined.

Section removers.
Context {E : Externals}.

(** C8: removing BlockValidation from the orderer group is refused for every
    config, whether or not the orderer group or a policy of that name is
    there: the name is tested before anything is looked up, and the config
    is left as it was. *)
Theorem RemoveOrdererPolicy_BlockValidation_refused (config : cb.Config) :
  RemoveOrdererPolicy config BlockValidationPolicyKey
  = Returns config (Some "BlockValidation policy must be defined").
Proof.
  unfold RemoveOrdererPolicy.
  rewrite String.eqb_refl.
  reflexivity.
Qed.
End removers.

(** C10: when the named consortium and the named org exist,
    RemoveConsortiumOrgPolicy returns no error whether or not the org has a
    policy of the given name; the org's policy map afterwards is the former
    one with the name deleted, so when the policy is absent the config is
    unchanged and the call still succeeds. *)
Theorem RemoveConsortiumOrgPolicy_absent_policy_ok (config : cb.Config)
    (consortiumName orgName policyName : string) (org : cb.ConfigGroup) :
  consortium_org config consortiumName orgName = Some org ->
  exists config' : cb.Config,
    RemoveConsortiumOrgPolicy config consortiumName orgName policyName
    = Returns config' None
    /\ consortium_org config' consortiumName orgName
       = Some (with_policies org (delete policyName <$> cb.Policies org))
    /\ ((cb.Policies org ≫= lookup policyName) = None -> config' = config).
Proof.
  unfold consortium_org, RemoveConsortiumOrgPolicy, in_channel, in_child.
  destruct config as [[channelGroup|]]; cbn; [|discriminate].
  destruct (cb.Groups channelGroup !! ConsortiumsGroupKey) as [consortiums|] eqn:Hc;
    cbn; [|discriminate].
  destruct (cb.Groups consortiums !! consortiumName) as [consortium|] eqn:Hn;
    cbn; [|discriminate].
  intros Horg. rewrite Horg.
  eexists. split; [reflexivity|]. split.
  - cbn. rewrite lookup_insert_eq. cbn. rewrite lookup_insert_eq. cbn.
    rewrite lookup_insert_eq. reflexivity.
  - intros Habsent.
    fold (with_policies org (delete policyName <$> cb.Policies org)).
    rewrite (delete_absent_policy org policyName Habsent).
    rewrite (set_group_same orgName org consortium Horg).
    rewrite (set_group_same consortiumName consortium consortiums Hn).
    rewrite (set_group_same ConsortiumsGroupKey consortiums channelGroup Hc).
    reflexivity.
Qed.

Lemma RemoveConsortiumOrgPolicy_absent_policy_ok_witness :
  (cb.Policies sample_org ≫= lookup WritersPolicyKey) = None
  /\ exists config' : cb.Config,
       RemoveConsortiumOrgPolicy sample_config "SampleConsortium" "Org1"
         WritersPolicyKey
       = Returns config' None
       /\ consortium_org config' "SampleConsortium" "Org1"
          = Some (with_policies sample_org
                    (delete WritersPolicyKey <$> cb.Policies sample_org))
       /\ ((cb.Policies sample_org ≫= lookup WritersPolicyKey) = None ->
           config' = sample_config).
Proof.
  split; [reflexivity|].
  exact (RemoveConsortiumOrgPolicy_absent_policy_ok sample_config
           "SampleConsortium" "Org1" WritersPolicyKey sample_org eq_refl).
Defined.

(** X18: the other removers do check: removing from the application group a
    name its extracted policies lack returns the could-not-find error and
    leaves the config as it was. *)
Lemma RemoveApplicationPolicy_absent_policy_error {E : Externals} (config : cb.Config)
    (policies : gmap string Policy) (policyName : string) :
  GetPoliciesForApplication config = Ok policies ->
  policies !! policyName = None ->
  RemoveApplicationPolicy config policyName
  = Returns config (Some ("could not find policy '" +:+ policyName +:+ "'")).
Proof.
  intros Hget Habsent. unfold RemoveApplicationPolicy. rewrite Hget.
  unfold GetPoliciesForApplication in Hget.
  destruct config as [[channelGroup|]]; cbn in *; [|discriminate].
  unfold in_channel, on_child, removePolicy. cbn. rewrite Habsent.
  destruct (cb.Groups channelGroup !! ApplicationGroupKey) as [application|] eqn:Happ;
    [|discriminate].
  now rewrite (set_group_same _ _ _ Happ).
Qed.

(** ** Navigation *)

Section navigation.
Context {E : Externals}.

(** A consortium-org lookup under a consortium that is not there dereferences
    the nil pointer the map lookup gave. *)
Lemma GetPoliciesForConsortiumOrg_missing_consortium (config : cb.Config)
    (channelGroup consortiums : cb.ConfigGroup) (consortiumName orgName : string) :
  cb.ChannelGroup config = Some channelGroup ->
  cb.Groups channelGroup !! ConsortiumsGroupKey = Some consortiums ->
  cb.Groups consortiums !! consortiumName = None ->
  GetPoliciesForConsortiumOrg config consortiumName orgName = Panic.
Proof.
  intros Hch Hcons Hmissing. unfold GetPoliciesForConsortiumOrg.
  rewrite Hch. cbn. rewrite Hcons. cbn. rewrite Hmissing. reflexivity.
Qed.

(** An application-org lookup without an application group does the same. *)
Lemma GetPoliciesForApplicationOrg_missing_application (config : cb.Config)
    (channelGroup : cb.ConfigGroup) (orgName : string) :
  cb.ChannelGroup config = Some channelGroup ->
  cb.Groups channelGroup !! ApplicationGroupKey = None ->
  GetPoliciesForApplicationOrg config orgName = Panic.
Proof.
  intros Hch Hmissing. unfold GetPoliciesForApplicationOrg.
  rewrite Hch. cbn. rewrite Hmissing. reflexivity.
Qed.

(** The sibling mutator on the same config tests the consortium first and
    returns the error the getter should. *)
Lemma AddConsortiumOrgPolicy_missing_consortium (policyName : string) (policy : Policy) :
  AddConsortiumOrgPolicy config_without_consortium "SampleConsortium" "Org1"
    policyName policy
  = Returns config_without_consortium
      (Some "consortium 'SampleConsortium' does not exist in channel config").
Proof. vm_compute. reflexivity. Qed.

(** C3 fails on the code: with the Consortiums group present and the named
    consortium missing, GetPoliciesForConsortiumOrg panics instead of
    returning a does-not-exist error, and so does
    GetPoliciesForApplicationOrg when the application group is missing. *)
Theorem GetPoliciesForOrg_missing_segment_panics :
  GetPoliciesForConsortiumOrg config_without_consortium "SampleConsortium" "Org1"
  = Panic
  /\ GetPoliciesForApplicationOrg config_without_application "Org1" = Panic.
Proof.
  split.
  - apply (GetPoliciesForConsortiumOrg_missing_consortium _
             (cb.Build_ConfigGroup
                {[ ConsortiumsGroupKey := cb.Build_ConfigGroup ∅ None ]} None)
             (cb.Build_ConfigGroup ∅ None)); reflexivity.
  - apply (GetPoliciesForApplicationOrg_missing_application _
             (cb.Build_ConfigGroup ∅ None)); reflexivity.
Qed.
End navigation.

(** * Further properties of the code *)

(** ** The signature-tree formatter, on whole trees *)

(** Induction on trees with the hypothesis for every child of a node. *)
Lemma SignaturePolicy_nested_ind (P : cb.SignaturePolicy -> Prop) :
  P cb.NilPolicy ->
  P cb.TypeUnset ->
  (forall i, P (cb.SignedBy i)) ->
  (forall N Rules, Forall P Rules -> P (cb.NOutOf N Rules)) ->
  forall sig, P sig.
Proof.
  intros Hnil Hunset Hleaf Hnode.
  fix IH 1. intros [| |i|N Rules].
  - exact Hnil.
  - exact Hunset.
  - apply Hleaf.
  - apply Hnode. induction Rules as [|rule rest IHrest].
    + constructor.
    + constructor; [apply IH | exact IHrest].
Qed.

Lemma formatRules_cons (rule : cb.SignaturePolicy) (rest : list cb.SignaturePolicy)
    (IDs : list string) :
  formatRules (rule :: rest) IDs
  = (sub ← signaturePolicyToString rule IDs;
     subs ← formatRules rest IDs; Ok (sub :: subs)).
Proof. reflexivity. Qed.

Lemma formatRules_Ok (IDs : list string) (Rules : list cb.SignaturePolicy) :
  Forall (fun rule => exists text, signaturePolicyToString rule IDs = Ok text) Rules ->
  exists subs, formatRules Rules IDs = Ok subs /\ length subs = length Rules.
Proof.
  induction 1 as [|rule rest [text Htext] _ [subs [Hsubs Hlen]]].
  - exists []. split; reflexivity.
  - exists (text :: subs). rewrite formatRules_cons, Htext, Hsubs.
    split; [reflexivity|]. cbn. now rewrite Hlen.
Qed.

Lemma formatRules_Err (IDs : list string) (Rules : list cb.SignaturePolicy)
    (err : string) :
  formatRules Rules IDs = Err err ->
  exists rule, rule ∈ Rules /\ signaturePolicyToString rule IDs = Err err.
Proof.
  induction Rules as [|rule rest IH]; [discriminate|].
  rewrite formatRules_cons.
  destruct (signaturePolicyToString rule IDs) as [sub|e|] eqn:Hrule; cbn.
  - destruct (formatRules rest IDs) as [subs|e|]; cbn; try discriminate.
    intros [= ->]. destruct IH as [r [Hin Hr]]; [reflexivity|].
    exists r. split; [now apply elem_of_cons; right | exact Hr].
  - intros [= ->]. exists rule. split; [apply list_elem_of_here | exact Hrule].
  - discriminate.
Qed.

(** X1: a tree without nil pointer or unset oneof, whose SignedBy indices all
    lie within the identity list, is always rendered: the formatter returns
    a text, never an error and never a panic. *)
Theorem signaturePolicyToString_well_formed_Ok (IDs : list string)
    (sig : cb.SignaturePolicy) :
  well_formed (len IDs) sig = true ->
  exists text : string, signaturePolicyToString sig IDs = Ok text.
Proof.
  induction sig as [| |i|N Rules IH] using SignaturePolicy_nested_ind;
    cbn [well_formed]; try discriminate.
  - intros Hrange. cbn [signaturePolicyToString]. unfold index. rewrite Hrange.
    apply andb_prop in Hrange as [Hlow Hhigh].
    apply Z.leb_le in Hlow. apply Z.ltb_lt in Hhigh. unfold len in Hhigh.
    destruct (IDs !! Z.to_nat i) as [text|] eqn:Hlookup; [now exists text|].
    apply lookup_ge_None in Hlookup. lia.
  - intros Hall. rewrite signaturePolicyToString_NOutOf.
    destruct (formatRules_Ok IDs Rules) as [subs [Hsubs _]].
    + rewrite forallb_forall in Hall. rewrite Forall_forall in IH |- *.
      intros rule Hin. apply IH; [exact Hin|].
      apply Hall. now apply list_elem_of_In.
    + rewrite Hsubs. eexists. reflexivity.
Qed.

Lemma signaturePolicyToString_well_formed_Ok_witness :
  exists text : string,
    signaturePolicyToString
      (cb.NOutOf 1 [cb.SignedBy 0; cb.NOutOf 2 [cb.SignedBy 1; cb.SignedBy 0]])
      ["'Org1MSP.member'"; "'Org2MSP.member'"]
    = Ok text.
Proof.
  exact (signaturePolicyToString_well_formed_Ok
           ["'Org1MSP.member'"; "'Org2MSP.member'"]
           (cb.NOutOf 1 [cb.SignedBy 0; cb.NOutOf 2 [cb.SignedBy 1; cb.SignedBy 0]])
           eq_refl).
Defined.

(** X2: the only error the tree formatter ever returns, at any depth, is the
    unknown-signature-policy-type error of a node whose oneof is unset. *)
Theorem signaturePolicyToString_only_error (IDs : list string)
    (sig : cb.SignaturePolicy) (err : string) :
  signaturePolicyToString sig IDs = Err err ->
  err = "unknown signature policy type <nil>".
Proof.
  induction sig as [| |i|N Rules IH] using SignaturePolicy_nested_ind.
  - discriminate.
  - now intros [= <-].
  - cbn [signaturePolicyToString]. unfold index.
    destruct ((0 <=? i) && (i <? len IDs)); [|discriminate].
    destruct (IDs !! Z.to_nat i); discriminate.
  - rewrite signaturePolicyToString_NOutOf.
    destruct (formatRules Rules IDs) as [subs|e|] eqn:Hrules; cbn; try discriminate.
    intros [= ->]. apply formatRules_Err in Hrules as [rule [Hin Hrule]].
    rewrite Forall_forall in IH. exact (IH rule Hin Hrule).
Qed.

Lemma signaturePolicyToString_only_error_witness :
  signaturePolicyToString (cb.NOutOf 2 [cb.SignedBy 0; cb.NOutOf 1 [cb.TypeUnset]])
    ["'Org1MSP.member'"]
  = Err "unknown signature policy type <nil>"
  /\ "unknown signature policy type <nil>" = "unknown signature policy type <nil>".
Proof.
  assert (Hrun : signaturePolicyToString
                   (cb.NOutOf 2 [cb.SignedBy 0; cb.NOutOf 1 [cb.TypeUnset]])
                   ["'Org1MSP.member'"]
                 = Err "unknown signature policy type <nil>") by reflexivity.
  split; [exact Hrun|].
  exact (signaturePolicyToString_only_error _ _ _ Hrun).
Defined.

(** X3: a leaf returns the identity text at its index when the index lies
    within the identity list, and panics when the index is negative or
    not below the length of the list. *)
Theorem signaturePolicyToString_SignedBy_bounds (IDs : list string) (i : Z) :
  (0 <= i < len IDs ->
   exists text, IDs !! Z.to_nat i = Some text
                /\ signaturePolicyToString (cb.SignedBy i) IDs = Ok text)
  /\ (i < 0 \/ len IDs <= i -> signaturePolicyToString (cb.SignedBy i) IDs = Panic).
Proof.
  cbn [signaturePolicyToString]. unfold index. split.
  - intros [Hlow Hhigh].
    destruct (Z.leb_spec 0 i); [|lia]. destruct (Z.ltb_spec i (len IDs)); [|lia].
    cbn. unfold len in Hhigh.
    destruct (IDs !! Z.to_nat i) as [text|] eqn:Hlookup.
    + now exists text.
    + apply lookup_ge_None in Hlookup. lia.
  - intros [Hneg|Hbig].
    + destruct (Z.leb_spec 0 i); [lia|]. reflexivity.
    + destruct (Z.ltb_spec i (len IDs)); [lia|]. now rewrite andb_false_r.
Qed.

Lemma signaturePolicyToString_SignedBy_bounds_witness :
  signaturePolicyToString (cb.SignedBy 2) ["'Org1MSP.member'"] = Panic
  /\ signaturePolicyToString (cb.SignedBy (-1)) ["'Org1MSP.member'"] = Panic.
Proof.
  split.
  - apply (proj2 (signaturePolicyToString_SignedBy_bounds ["'Org1MSP.member'"] 2)).
    right. vm_compute. discriminate.
  - apply (proj2 (signaturePolicyToString_SignedBy_bounds ["'Org1MSP.member'"] (-1))).
    left. reflexivity.
Defined.

(** X4: a threshold that is neither 1 nor the number of children (as int32)
    is rendered with OUTOF and the threshold as first argument; this
    includes a threshold of 0 over some children, a negative threshold and
    a threshold above the number of children. *)
Theorem signaturePolicyToString_OUTOF_any_threshold (N : Z)
    (Rules : list cb.SignaturePolicy) (IDs : list string) :
  N <> 1 ->
  N <> int32 (len Rules) ->
  signaturePolicyToString (cb.NOutOf N Rules) IDs
  = (subs ← formatRules Rules IDs; Ok (gateCall "OUTOF" (strconv.Itoa N :: subs))).
Proof.
  intros Hone Hlen.
  assert (Hgate : gateOf N Rules = policydsl.GateOutOf).
  { unfold gateOf.
    destruct (Z.eqb_spec N 1); [contradiction|].
    destruct (Z.eqb_spec N (int32 (len Rules))); [contradiction|]. reflexivity. }
  rewrite signaturePolicyToString_NOutOf, Hgate. reflexivity.
Qed.

Lemma signaturePolicyToString_OUTOF_any_threshold_witness :
  signaturePolicyToString (cb.NOutOf 0 [cb.SignedBy 0]) ["'Org1MSP.member'"]
  = Ok "OUTOF(0, 'Org1MSP.member')"
  /\ signaturePolicyToString (cb.NOutOf 5 [cb.SignedBy 0]) ["'Org1MSP.member'"]
     = Ok "OUTOF(5, 'Org1MSP.member')".
Proof.
  split.
  - refine (signaturePolicyToString_OUTOF_any_threshold 0 [cb.SignedBy 0]
              ["'Org1MSP.member'"] _ _); vm_compute; discriminate.
  - refine (signaturePolicyToString_OUTOF_any_threshold 5 [cb.SignedBy 0]
              ["'Org1MSP.member'"] _ _); vm_compute; discriminate.
Defined.

(** ** The implicit-meta and envelope formatters *)

(** X5: an implicit-meta policy whose rule is ANY, ALL or MAJORITY is
    rendered as the rule's name, a space and the sub-policy name; any other
    rule value is refused with an error that carries the value. *)
Theorem implicitMetaToString_by_rule (imp : cb.ImplicitMetaPolicy) :
  (cb.imp_Rule imp ∈ [cb.ImplicitMetaPolicy_ANY; cb.ImplicitMetaPolicy_ALL;
                      cb.ImplicitMetaPolicy_MAJORITY] ->
   implicitMetaToString imp
   = Ok (cb.ImplicitMetaPolicy_Rule_String (cb.imp_Rule imp) +:+ " "
         +:+ cb.imp_SubPolicy imp))
  /\ (cb.imp_Rule imp ∉ [cb.ImplicitMetaPolicy_ANY; cb.ImplicitMetaPolicy_ALL;
                         cb.ImplicitMetaPolicy_MAJORITY] ->
      implicitMetaToString imp
      = Err ("unknown implicit meta policy rule type "
             +:+ strconv.Itoa (cb.imp_Rule imp))).
Proof.
  destruct imp as [sub rule]. unfold implicitMetaToString. cbn [cb.imp_Rule cb.imp_SubPolicy].
  split.
  - intros Hin.
    repeat (apply elem_of_cons in Hin as [->|Hin]; [reflexivity|]).
    now apply elem_of_nil in Hin.
  - intros Hout.
    repeat (rewrite not_elem_of_cons in Hout; destruct Hout as [?Hne Hout]).
    unfold cb.ImplicitMetaPolicy_Rule_String. cbn [EnumName].
    repeat match goal with
           | Hne : rule <> _ |- _ => apply Z.eqb_neq in Hne; rewrite !Hne; clear Hne
           end.
    reflexivity.
Qed.

Lemma implicitMetaToString_by_rule_witness :
  implicitMetaToString {| cb.imp_SubPolicy := "Readers"; cb.imp_Rule := 0 |}
  = Ok "ANY Readers"
  /\ implicitMetaToString {| cb.imp_SubPolicy := "Readers"; cb.imp_Rule := 3 |}
     = Err "unknown implicit meta policy rule type 3".
Proof.
  split.
  - apply (proj1 (implicitMetaToString_by_rule
                    {| cb.imp_SubPolicy := "Readers"; cb.imp_Rule := 0 |})).
    apply list_elem_of_here.
  - apply (proj2 (implicitMetaToString_by_rule
                    {| cb.imp_SubPolicy := "Readers"; cb.imp_Rule := 3 |})).
    cbn. intros Hin.
    repeat (apply elem_of_cons in Hin as [Heq|Hin]; [discriminate Heq|]).
    now apply elem_of_nil in Hin.
Defined.

Section envelope_formatter.
Context {E : Externals}.

(** The loop over the identities collects their renderings in order. *)
Lemma identities_mapM (ids : list mb.MSPPrincipal) :
  forall roles : list string,
    (fix identities (ids : list mb.MSPPrincipal) (roles : list string)
       : result (list string) :=
       match ids with
       | [] => Ok roles
       | id :: rest =>
           role ← mspPrincipalToString id;
           identities rest (roles ++ [role])%list
       end) ids roles
    = (more ← mapM mspPrincipalToString ids; Ok (roles ++ more)%list).
Proof.
  induction ids as [|id rest IH]; intros roles.
  - cbn. now rewrite app_nil_r.
  - cbn. destruct (mspPrincipalToString id) as [role|err|]; cbn; try reflexivity.
    rewrite IH.
    destruct (mapM mspPrincipalToString rest) as [more|err|]; cbn; try reflexivity.
    now rewrite <- app_assoc.
Qed.

Lemma signatureMetaToString_mapM (sig : cb.SignaturePolicyEnvelope) :
  signatureMetaToString sig
  = (roles ← mapM mspPrincipalToString (cb.sp_Identities sig);
     signaturePolicyToString (cb.sp_Rule sig) roles).
Proof.
  unfold signatureMetaToString. rewrite identities_mapM.
  destruct (mapM mspPrincipalToString (cb.sp_Identities sig)); reflexivity.
Qed.

Lemma mapM_principals_Ok (ids : list mb.MSPPrincipal) (texts : list string) :
  Forall2 (fun id text => mspPrincipalToString id = Ok text) ids texts ->
  mapM mspPrincipalToString ids = Ok texts.
Proof.
  induction 1 as [|id text ids texts Hid _ IH]; [reflexivity|].
  cbn. rewrite Hid. cbn. rewrite IH. reflexivity.
Qed.

Lemma mapM_principals_app_Err (pre post : list mb.MSPPrincipal)
    (texts : list string) (bad : mb.MSPPrincipal) (err : string) :
  Forall2 (fun id text => mspPrincipalToString id = Ok text) pre texts ->
  mspPrincipalToString bad = Err err ->
  mapM mspPrincipalToString (pre ++ bad :: post) = Err err.
Proof.
  intros Hpre Hbad. induction Hpre as [|id text ids texts Hid _ IH].
  - cbn. rewrite Hbad. reflexivity.
  - cbn. rewrite Hid. cbn.
    change (mapM mspPrincipalToString (ids ++ bad :: post) = Err err) in IH.
    rewrite IH. reflexivity.
Qed.

(** X6: the identities of an envelope are rendered before its rule is
    looked at: when an identity fails to render (an unknown classification,
    or a ROLE payload that does not decode) and those before it render, the
    envelope formatter returns that identity's error, whatever the rule is,
    even a nil one. *)
Theorem signatureMetaToString_identity_error (rule : cb.SignaturePolicy)
    (pre post : list mb.MSPPrincipal) (texts : list string)
    (bad : mb.MSPPrincipal) (err : string) :
  Forall2 (fun id text => mspPrincipalToString id = Ok text) pre texts ->
  mspPrincipalToString bad = Err err ->
  signatureMetaToString
    {| cb.sp_Rule := rule; cb.sp_Identities := (pre ++ bad :: post)%list |}
  = Err err.
Proof.
  intros Hpre Hbad. rewrite signatureMetaToString_mapM. cbn [cb.sp_Identities].
  rewrite (mapM_principals_app_Err pre post texts bad err Hpre Hbad). reflexivity.
Qed.

(** X7: when every identity renders, the envelope is rendered as its rule
    over the identities' renderings, taken in the order of the identity
    list: [SignedBy i] stands for the i-th identity. *)
Theorem signatureMetaToString_identities_in_order (sig : cb.SignaturePolicyEnvelope)
    (texts : list string) :
  Forall2 (fun id text => mspPrincipalToString id = Ok text)
    (cb.sp_Identities sig) texts ->
  signatureMetaToString sig = signaturePolicyToString (cb.sp_Rule sig) texts.
Proof.
  intros Hids. rewrite signatureMetaToString_mapM.
  rewrite (mapM_principals_Ok _ _ Hids). reflexivity.
Qed.
End envelope_formatter.

Lemma signatureMetaToString_identity_error_witness :
  signatureMetaToString (E := sample_externals)
    {| cb.sp_Rule := cb.NilPolicy;
       cb.sp_Identities :=
         [{| mb.PrincipalClassification := mb.MSPPrincipal_ROLE;
             mb.Principal := x01 :: list_byte_of_string "Org1MSP" |};
          {| mb.PrincipalClassification := mb.MSPPrincipal_ROLE;
             mb.Principal := [xff] |}] |}
  = Err sample_parse_error.
Proof.
  refine (signatureMetaToString_identity_error (E := sample_externals) cb.NilPolicy
            [{| mb.PrincipalClassification := mb.MSPPrincipal_ROLE;
                mb.Principal := x01 :: list_byte_of_string "Org1MSP" |}]
            [] ["'Org1MSP.admin'"]
            {| mb.PrincipalClassification := mb.MSPPrincipal_ROLE;
               mb.Principal := [xff] |}
            sample_parse_error _ _).
  - repeat constructor.
  - reflexivity.
Defined.

Lemma signatureMetaToString_identities_in_order_witness :
  signatureMetaToString (E := sample_externals)
    {| cb.sp_Rule := cb.NOutOf 1 [cb.SignedBy 1; cb.SignedBy 0];
       cb.sp_Identities :=
         [{| mb.PrincipalClassification := mb.MSPPrincipal_ROLE;
             mb.Principal := x01 :: list_byte_of_string "Org1MSP" |};
          {| mb.PrincipalClassification := mb.MSPPrincipal_IDENTITY;
             mb.Principal := [] |}] |}
  = Ok "OR(, 'Org1MSP.admin')".
Proof.
  refine (signatureMetaToString_identities_in_order (E := sample_externals)
            {| cb.sp_Rule := cb.NOutOf 1 [cb.SignedBy 1; cb.SignedBy 0];
               cb.sp_Identities :=
                 [{| mb.PrincipalClassification := mb.MSPPrincipal_ROLE;
                     mb.Principal := x01 :: list_byte_of_string "Org1MSP" |};
                  {| mb.PrincipalClassification := mb.MSPPrincipal_IDENTITY;
                     mb.Principal := [] |}] |}
            ["'Org1MSP.admin'"; ""] _).
  repeat constructor.
Defined.

(** ** The extractor, when it succeeds *)

Section extractor_success.
Context {E : Externals}.

(** Over entries with distinct names, the loop returns [view] exactly when
    every entry converts and [view] holds the conversions on top of [p]. *)
Lemma getPolicies_range_Ok_iff (entries : list (string * cb.ConfigPolicy)) :
  NoDup entries.*1 ->
  forall p view : gmap string Policy,
    getPolicies_range entries p = Ok view
    <-> (forall n q, (n, q) ∈ entries ->
           exists pol, convertPolicy q = Ok pol /\ view !! n = Some pol)
        /\ (forall n, n ∉ entries.*1 -> view !! n = p !! n).
Proof.
  induction entries as [|[k q] rest IH]; intros Hnodup p view.
  - cbn. split.
    + intros [= <-]. split; [|reflexivity].
      intros n q' Hin. now apply elem_of_nil in Hin.
    + intros [_ Hsame]. f_equal. apply map_eq. intros n. symmetry.
      apply Hsame. apply not_elem_of_nil.
  - cbn [fmap list_fmap] in Hnodup. apply NoDup_cons in Hnodup as [Hfresh Hnodup].
    rewrite getPolicies_range_cons. split.
    + destruct (convertPolicy q) as [pol| |] eqn:Hq; cbn; try discriminate.
      intros Hrest. apply (IH Hnodup) in Hrest as [Hin Hout]. split.
      * intros n q' Hmem. apply elem_of_cons in Hmem as [[= -> ->]|Hmem].
        -- exists pol. split; [exact Hq|].
           rewrite (Hout k Hfresh). apply lookup_insert_eq.
        -- now apply Hin.
      * intros n Hn. cbn in Hn. apply not_elem_of_cons in Hn as [Hne Hn].
        rewrite (Hout n Hn). now apply lookup_insert_ne.
    + intros [Hin Hout].
      destruct (Hin k q) as [pol [Hq Hview]]; [apply list_elem_of_here|].
      rewrite Hq. cbn. apply (IH Hnodup). split.
      * intros n q' Hmem. apply Hin. now apply elem_of_cons; right.
      * intros n Hn. destruct (decide (n = k)) as [->|Hne].
        -- now rewrite lookup_insert_eq.
        -- rewrite lookup_insert_ne by congruence.
           apply Hout. cbn. now apply not_elem_of_cons.
Qed.

Lemma range_entries (V : Type) (m : gmap string V) :
  range_lawful E ->
  NoDup (range (Some m)).*1
  /\ (forall n v, (n, v) ∈ range (Some m) <-> m !! n = Some v)
  /\ (forall n, n ∉ (range (Some m)).*1 <-> m !! n = None).
Proof.
  intros Hlawful. unfold range. cbn [default].
  pose proof (Hlawful _ (map_to_list m)) as Hperm.
  assert (Hin : forall n v, (n, v) ∈ range_order (map_to_list m) <-> m !! n = Some v).
  { intros n v. rewrite Hperm. apply elem_of_map_to_list. }
  split; [|split].
  - rewrite Hperm. apply NoDup_fst_map_to_list.
  - exact Hin.
  - intros n. rewrite list_elem_of_fmap. split.
    + intros Hnot. destruct (m !! n) as [v|] eqn:Hv; [|reflexivity].
      destruct Hnot. exists (n, v). split; [reflexivity | now apply Hin].
    + intros Hnone [[n' v] [-> Hmem]]. apply Hin in Hmem. cbn in Hnone. congruence.
Qed.

Lemma range_nil (V : Type) :
  range_lawful E -> range (None : option (gmap string V)) = [].
Proof.
  intros Hlawful. unfold range. cbn [default]. rewrite map_to_list_empty.
  apply Permutation_nil_r. exact (Hlawful _ []).
Qed.

(** The characterisation on a map, nil or not. *)
Lemma getPolicies_Ok_iff (policies : option (gmap string cb.ConfigPolicy))
    (view : gmap string Policy) :
  range_lawful E ->
  getPolicies policies = Ok view
  <-> (forall n q, default ∅ policies !! n = Some q ->
         exists pol, convertPolicy q = Ok pol /\ view !! n = Some pol)
      /\ (forall n, default ∅ policies !! n = None -> view !! n = None).
Proof.
  intros Hlawful. unfold getPolicies.
  assert (Hrange : range policies = range (Some (default ∅ policies))).
  { destruct policies; [reflexivity|]. cbn [default]. unfold range. reflexivity. }
  rewrite Hrange.
  destruct (range_entries _ (default ∅ policies) Hlawful) as (Hnodup & Hin & Hout).
  rewrite (getPolicies_range_Ok_iff _ Hnodup). split.
  - intros [Hconv Hsame]. split.
    + intros n q Hq. apply Hconv. now apply Hin.
    + intros n Hn. rewrite (Hsame n) by now apply Hout. apply lookup_empty.
  - intros [Hconv Hnone]. split.
    + intros n q Hq. apply Hconv. now apply Hin.
    + intros n Hn. rewrite lookup_empty. apply Hnone. now apply Hout.
Qed.

(** X8: whatever the order in which the map is visited, the extraction
    returns a map exactly when every stored entry converts, and that map
    has the same names as the stored one, each bound to the conversion of its
    entry. *)
Theorem getPolicies_returns_conversions (policies : gmap string cb.ConfigPolicy)
    (view : gmap string Policy) :
  range_lawful E ->
  getPolicies (Some policies) = Ok view
  <-> (forall n q, policies !! n = Some q ->
         exists pol, convertPolicy q = Ok pol /\ view !! n = Some pol)
      /\ (forall n, policies !! n = None -> view !! n = None).
Proof.
  intros Hlawful. exact (getPolicies_Ok_iff (Some policies) view Hlawful).
Qed.

(** X9: a nil policy map and an empty one are both extracted to the empty
    map, without error. *)
Theorem getPolicies_nil_or_empty :
  range_lawful E ->
  getPolicies None = Ok ∅ /\ getPolicies (Some ∅) = Ok ∅.
Proof.
  intros Hlawful. split; apply getPolicies_Ok_iff; try exact Hlawful; cbn.
  - split; intros n; [intros q|]; rewrite lookup_empty; [discriminate|reflexivity].
  - split; intros n; [intros q|]; rewrite lookup_empty; [discriminate|reflexivity].
Qed.
End extractor_success.

Lemma getPolicies_returns_conversions_witness :
  getPolicies (E := sample_externals) (Some (delete AdminsPolicyKey sample_stored))
  = Ok sample_view.
Proof.
  apply (getPolicies_returns_conversions (E := sample_externals)
           (delete AdminsPolicyKey sample_stored) sample_view
           sample_externals_lawful).
  unfold sample_stored. rewrite delete_insert_eq, delete_id by reflexivity. split.
  - intros n q Hq. apply lookup_insert_Some in Hq as [[<- <-]|[_ Hq]].
    + eexists. split; reflexivity.
    + rewrite lookup_empty in Hq. discriminate.
  - intros n Hn. apply lookup_insert_None in Hn as [_ Hne].
    unfold sample_view. now apply lookup_singleton_ne.
Defined.

Lemma getPolicies_nil_or_empty_witness :
  getPolicies (E := sample_externals) None = Ok ∅
  /\ getPolicies (E := sample_externals) (Some ∅) = Ok ∅.
Proof.
  exact (getPolicies_nil_or_empty (E := sample_externals) sample_externals_lawful).
Defined.

(** ** The installer, when it succeeds *)

Section installer_success.
Context {E : Externals}.

Lemma encodePolicy_Ok (modPolicy : string) (policy : Policy)
    (stored : cb.ConfigPolicy) :
  encodePolicy modPolicy policy = Ok stored ->
  exists (tag : Z) (value : list byte),
    stored = {| cb.cp_Policy := Some {| cb.p_Type := tag; cb.p_Value := value |};
                cb.cp_ModPolicy := modPolicy |}
    /\ ((Type_ policy = ImplicitMetaPolicyType /\ tag = cb.Policy_IMPLICIT_META)
        \/ (Type_ policy = SignaturePolicyType /\ tag = cb.Policy_SIGNATURE)).
Proof.
  unfold encodePolicy.
  destruct (String.eqb_spec (Type_ policy) ImplicitMetaPolicyType) as [Himp|_].
  - destruct (implicitMetaFromString _) as [imp| |]; try discriminate.
    destruct (marshal_ImplicitMetaPolicy imp) as [value| |]; try discriminate.
    intros [= <-]. exists cb.Policy_IMPLICIT_META, value. split; [reflexivity|].
    left. split; [exact Himp | reflexivity].
  - destruct (String.eqb_spec (Type_ policy) SignaturePolicyType) as [Hsig|_];
      [|discriminate].
    destruct (policydsl_FromString _) as [sp| |]; try discriminate.
    destruct (marshal_SignaturePolicyEnvelope sp) as [value| |]; try discriminate.
    intros [= <-]. exists cb.Policy_SIGNATURE, value. split; [reflexivity|].
    right. split; [exact Hsig | reflexivity].
Qed.

(** X10: a single install that returns no error has written exactly one
    entry: under the given policy name (overwriting what was there), with
    the given modification policy, and with the kind-tag of the policy's
    kind, IMPLICIT_META or SIGNATURE; the child groups and every other
    policy name are as before. *)
Theorem addPolicy_success_writes_one_entry (g : cb.ConfigGroup)
    (cg' : option cb.ConfigGroup) (modPolicy policyName : string) (policy : Policy) :
  addPolicy (Some g) modPolicy policyName policy = Returns cg' None ->
  exists (policies : gmap string cb.ConfigPolicy) (tag : Z) (value : list byte),
    cb.Policies g = Some policies
    /\ cg' = Some (with_policies g
                     (Some (<[policyName :=
                               {| cb.cp_Policy :=
                                    Some {| cb.p_Type := tag; cb.p_Value := value |};
                                  cb.cp_ModPolicy := modPolicy |}]> policies)))
    /\ ((Type_ policy = ImplicitMetaPolicyType /\ tag = cb.Policy_IMPLICIT_META)
        \/ (Type_ policy = SignaturePolicyType /\ tag = cb.Policy_SIGNATURE)).
Proof.
  rewrite addPolicy_encodePolicy.
  destruct (encodePolicy modPolicy policy) as [stored|err|] eqn:Henc; try discriminate.
  apply encodePolicy_Ok in Henc as (tag & value & -> & Hkind).
  unfold store_policy. destruct (cb.Policies g) as [policies|] eqn:Hpolicies;
    [|discriminate].
  intros [= <-]. exists policies, tag, value. repeat split; assumption.
Qed.

(** X12: installing a policy that compiles and encodes panics when the group
    pointer is nil, and when the group's policy map is nil: the write into
    the map is not guarded. *)
Theorem addPolicy_nil_target_panics (modPolicy policyName : string)
    (policy : Policy) (stored : cb.ConfigPolicy) :
  encodePolicy modPolicy policy = Ok stored ->
  addPolicy None modPolicy policyName policy = Panics
  /\ forall g : cb.ConfigGroup,
       cb.Policies g = None ->
       addPolicy (Some g) modPolicy policyName policy = Panics.
Proof.
  intros Henc. split.
  - rewrite addPolicy_encodePolicy, Henc. reflexivity.
  - intros g Hnil. rewrite addPolicy_encodePolicy, Henc.
    unfold store_policy. rewrite Hnil. reflexivity.
Qed.

Lemma with_policies_twice (g : cb.ConfigGroup)
    (first second : option (gmap string cb.ConfigPolicy)) :
  with_policies (with_policies g first) second = with_policies g second.
Proof. reflexivity. Qed.

(** Over entries with distinct names that all encode, the loop succeeds and
    leaves every entry installed on top of the former map. *)
Lemma addPolicies_range_Ok (modPolicy : string) (entries : list (string * Policy)) :
  NoDup entries.*1 ->
  (forall n p, (n, p) ∈ entries -> exists stored, encodePolicy modPolicy p = Ok stored) ->
  forall (g : cb.ConfigGroup) (policies : gmap string cb.ConfigPolicy),
    cb.Policies g = Some policies ->
    exists final : gmap string cb.ConfigPolicy,
      addPolicies_range (Some g) modPolicy entries
      = Returns (Some (with_policies g (Some final))) None
      /\ (forall n p, (n, p) ∈ entries ->
            exists stored, encodePolicy modPolicy p = Ok stored
                           /\ final !! n = Some stored)
      /\ (forall n, n ∉ entries.*1 -> final !! n = policies !! n).
Proof.
  induction entries as [|[k p] rest IH]; intros Hnodup Henc g policies Hpolicies.
  - exists policies. cbn. repeat split.
    + destruct g as [groups pols]. cbn in Hpolicies. now subst.
    + intros n q Hin. now apply elem_of_nil in Hin.
  - cbn [fmap list_fmap] in Hnodup. apply NoDup_cons in Hnodup as [Hfresh Hnodup].
    destruct (Henc k p) as [stored Hstored]; [apply list_elem_of_here|].
    destruct (IH Hnodup) with
      (g := with_policies g (Some (<[k := stored]> policies)))
      (policies := <[k := stored]> policies)
      as (final & Hrun & Hin & Hout).
    { intros n q Hmem. apply (Henc n q). now apply elem_of_cons; right. }
    { reflexivity. }
    exists final. cbn [addPolicies_range].
    rewrite addPolicy_encodePolicy, Hstored. unfold store_policy. rewrite Hpolicies.
    split; [|split].
    + exact Hrun.
    + intros n q Hmem. apply elem_of_cons in Hmem as [[= -> ->]|Hmem].
      * exists stored. split; [exact Hstored|].
        rewrite (Hout k Hfresh). apply lookup_insert_eq.
      * now apply Hin.
    + intros n Hn. cbn in Hn. apply not_elem_of_cons in Hn as [Hne Hn].
      rewrite (Hout n Hn). now apply lookup_insert_ne.
Qed.

Lemma addPolicies_installs (g : cb.ConfigGroup)
    (policies : gmap string cb.ConfigPolicy) (batch : gmap string Policy)
    (modPolicy : string) :
  range_lawful E ->
  cb.Policies g = Some policies ->
  has_required batch ->
  (forall n p, batch !! n = Some p ->
     exists stored, encodePolicy modPolicy p = Ok stored) ->
  exists final : gmap string cb.ConfigPolicy,
    addPolicies (Some g) (Some batch) modPolicy
    = Returns (Some (with_policies g (Some final))) None
    /\ (forall n p, batch !! n = Some p ->
          exists stored, encodePolicy modPolicy p = Ok stored
                         /\ final !! n = Some stored)
    /\ (forall n, batch !! n = None -> final !! n = policies !! n).
Proof.
  intros Hlawful Hpolicies (HA & HR & HW) Henc.
  destruct (range_entries _ batch Hlawful) as (Hnodup & Hin & Hout).
  destruct (addPolicies_range_Ok modPolicy (range (Some batch)) Hnodup)
    with (g := g) (policies := policies) as (final & Hrun & Hfin & Hrest).
  { intros n p Hmem. apply (Henc n p). now apply Hin. }
  { exact Hpolicies. }
  exists final. unfold addPolicies.
  destruct HA as [a ->], HR as [r ->], HW as [w ->].
  split; [exact Hrun|split].
  - intros n p Hp. apply Hfin. now apply Hin.
  - intros n Hn. apply Hrest. now apply Hout.
Qed.


(** X14: install then extract.  When extraction of the group gave [view],
    and extraction inverts installation on every entry of the batch (the
    codec round-trips and the formatter gives back the rule that was
    compiled), then after a batch install the extraction gives the batch
    itself on top of [view]. *)
Theorem addPolicies_then_getPolicies (g : cb.ConfigGroup)
    (policies : gmap string cb.ConfigPolicy) (view batch : gmap string Policy)
    (modPolicy : string) :
  range_lawful E ->
  cb.Policies g = Some policies ->
  getPolicies (Some policies) = Ok view ->
  has_required batch ->
  (forall n p, batch !! n = Some p ->
     exists stored, encodePolicy modPolicy p = Ok stored
                    /\ convertPolicy stored = Ok p) ->
  exists g' : cb.ConfigGroup,
    addPolicies (Some g) (Some batch) modPolicy = Returns (Some g') None
    /\ getPolicies (cb.Policies g') = Ok (batch ∪ view).
Proof.
  intros Hlawful Hpolicies Hview Hrequired Hround.
  destruct (addPolicies_installs g policies batch modPolicy Hlawful Hpolicies
              Hrequired) as (final & Hrun & Hin & Hout).
  { intros n p Hp. destruct (Hround n p Hp) as [stored [Hstored _]]. now exists stored. }
  exists (with_policies g (Some final)). split; [exact Hrun|].
  cbn [with_policies cb.Policies].
  apply (getPolicies_Ok_iff (Some policies) view Hlawful) in Hview as [Hconv Hnone].
  apply (getPolicies_Ok_iff (Some final) (batch ∪ view) Hlawful).
  change (default ∅ (Some policies)) with policies in Hconv, Hnone.
  split.
  - intros n q Hq. change (final !! n = Some q) in Hq.
    destruct (batch !! n) as [p|] eqn:Hp.
    + destruct (Hin n p Hp) as [stored [Hstored Hfinal]].
      destruct (Hround n p Hp) as [stored' [Hstored' Hback]].
      assert (stored' = stored) by congruence. subst stored'.
      assert (q = stored) by congruence. subst q.
      exists p. split; [exact Hback|].
      apply lookup_union_Some_l. exact Hp.
    + rewrite (Hout n Hp) in Hq. destruct (Hconv n q Hq) as [pol [Hpol Hv]].
      exists pol. split; [exact Hpol|].
      rewrite lookup_union_r by exact Hp. exact Hv.
  - intros n Hn. change (final !! n = None) in Hn.
    destruct (batch !! n) as [p|] eqn:Hp.
    + destruct (Hin n p Hp) as [stored [_ Hfinal]]. congruence.
    + rewrite lookup_union_r by exact Hp. apply Hnone.
      rewrite <- (Hout n Hp). exact Hn.
Qed.
End installer_success.

Lemma addPolicy_error_unchanged_witness :
  addPolicy (E := sample_externals) (Some empty_group) AdminsPolicyKey
    ReadersPolicyKey {| Type_ := ImplicitMetaPolicyType; Rule := "SOME Readers" |}
  = Returns (Some empty_group)
      (Some "invalid implicit meta policy rule: 'SOME Readers': unknown rule type 'SOME', expected ALL, ANY, or MAJORITY")
  /\ Some empty_group = Some empty_group.
Proof.
  split; [reflexivity|].
  exact (addPolicy_error_unchanged (E := sample_externals)
           (Some empty_group) (Some empty_group) AdminsPolicyKey ReadersPolicyKey
           {| Type_ := ImplicitMetaPolicyType; Rule := "SOME Readers" |}
           "invalid implicit meta policy rule: 'SOME Readers': unknown rule type 'SOME', expected ALL, ANY, or MAJORITY"
           eq_refl).
Defined.

Lemma addPolicy_success_writes_one_entry_witness :
  exists (policies : gmap string cb.ConfigPolicy) (tag : Z) (value : list byte),
    cb.Policies empty_group = Some policies
    /\ Some (with_policies empty_group
               (Some (<[WritersPolicyKey := sample_writers_stored]> ∅)))
       = Some (with_policies empty_group
                 (Some (<[WritersPolicyKey :=
                           {| cb.cp_Policy :=
                                Some {| cb.p_Type := tag; cb.p_Value := value |};
                              cb.cp_ModPolicy := AdminsPolicyKey |}]> policies)))
    /\ (("ImplicitMeta" = ImplicitMetaPolicyType /\ tag = cb.Policy_IMPLICIT_META)
        \/ ("ImplicitMeta" = SignaturePolicyType /\ tag = cb.Policy_SIGNATURE)).
Proof.
  exact (addPolicy_success_writes_one_entry (E := sample_externals) empty_group
           (Some (with_policies empty_group
                    (Some (<[WritersPolicyKey := sample_writers_stored]> ∅))))
           AdminsPolicyKey WritersPolicyKey
           {| Type_ := ImplicitMetaPolicyType; Rule := "ANY Writers" |} eq_refl).
Defined.

Lemma addPolicy_nil_target_panics_witness :
  addPolicy (E := sample_externals) None AdminsPolicyKey WritersPolicyKey
    {| Type_ := ImplicitMetaPolicyType; Rule := "ANY Writers" |} = Panics
  /\ addPolicy (E := sample_externals) (Some (cb.Build_ConfigGroup ∅ None))
       AdminsPolicyKey WritersPolicyKey
       {| Type_ := ImplicitMetaPolicyType; Rule := "ANY Writers" |} = Panics.
Proof.
  destruct (addPolicy_nil_target_panics (E := sample_externals) AdminsPolicyKey
              WritersPolicyKey
              {| Type_ := ImplicitMetaPolicyType; Rule := "ANY Writers" |}
              sample_writers_stored eq_refl) as [Hnil Hmap].
  split; [exact Hnil|]. apply Hmap. reflexivity.
Defined.

(** Every entry of [sample_batch_valid] encodes in the sample environment,
    and is extracted back. *)
Lemma sample_batch_valid_round_trip (n : string) (p : Policy) :
  sample_batch_valid !! n = Some p ->
  exists stored,
    encodePolicy (E := sample_externals) AdminsPolicyKey p = Ok stored
    /\ convertPolicy (E := sample_externals) stored = Ok p.
Proof.
  unfold sample_batch_valid. intros Hp.
  repeat (apply lookup_insert_Some in Hp as [[_ <-]|[_ Hp]];
          [eexists; split; reflexivity|]).
  rewrite lookup_empty in Hp. discriminate.
Qed.

Lemma sample_batch_valid_required : has_required sample_batch_valid.
Proof. repeat split; eexists; reflexivity. Qed.


Lemma addPolicies_then_getPolicies_witness :
  exists g' : cb.ConfigGroup,
    addPolicies (E := sample_externals) (Some empty_group) (Some sample_batch_valid)
      AdminsPolicyKey
    = Returns (Some g') None
    /\ getPolicies (E := sample_externals) (cb.Policies g')
       = Ok (sample_batch_valid ∪ ∅).
Proof.
  exact (addPolicies_then_getPolicies (E := sample_externals) empty_group ∅ ∅
           sample_batch_valid AdminsPolicyKey sample_externals_lawful eq_refl
           eq_refl sample_batch_valid_required
           sample_batch_valid_round_trip).
Defined.

(** ** The removers on a whole config *)

Section removers_compose.
Context {E : Externals}.

(** Deleting a name from the stored map deletes it from the extracted one. *)
Lemma getPolicies_delete (policies : option (gmap string cb.ConfigPolicy))
    (view : gmap string Policy) (policyName : string) :
  range_lawful E ->
  getPolicies policies = Ok view ->
  getPolicies (delete policyName <$> policies) = Ok (delete policyName view).
Proof.
  intros Hlawful Hview.
  apply (getPolicies_Ok_iff policies view Hlawful) in Hview as [Hconv Hnone].
  apply (getPolicies_Ok_iff _ _ Hlawful).
  assert (Hdel : default ∅ (delete policyName <$> policies)
                 = delete policyName (default ∅ policies)).
  { destruct policies; cbn; [reflexivity|]. now rewrite delete_empty. }
  rewrite Hdel. split.
  - intros n q Hq. apply lookup_delete_Some in Hq as [Hne Hq].
    destruct (Hconv n q Hq) as [pol [Hpol Hv]]. exists pol. split; [exact Hpol|].
    now rewrite lookup_delete_ne.
  - intros n Hn. apply lookup_delete_None in Hn as [->|Hn].
    + apply lookup_delete_eq.
    + destruct (decide (policyName = n)) as [->|Hne]; [apply lookup_delete_eq|].
      rewrite lookup_delete_ne by exact Hne. now apply Hnone.
Qed.

(** Removal of a name of the view from the group under [key]. *)
Lemma remove_in_top_group (key policyName : string) (config : cb.Config)
    (channelGroup g : cb.ConfigGroup) (view : gmap string Policy) :
  cb.ChannelGroup config = Some channelGroup ->
  cb.Groups channelGroup !! key = Some g ->
  is_Some (view !! policyName) ->
  in_channel config (on_child key (fun cg => removePolicy cg policyName view))
  = Returns
      {| cb.ChannelGroup :=
           Some (set_group key
                   (with_policies g (delete policyName <$> cb.Policies g))
                   channelGroup) |}
      None.
Proof.
  intros Hch Hg [p Hp]. unfold in_channel, on_child, removePolicy.
  rewrite Hch, Hg, Hp. reflexivity.
Qed.

(** Removal of a name of the view from the org [orgName] under [key]. *)
Lemma remove_in_org_group (key orgName policyName : string) (config : cb.Config)
    (channelGroup group org : cb.ConfigGroup) (view : gmap string Policy) :
  cb.ChannelGroup config = Some channelGroup ->
  cb.Groups channelGroup !! key = Some group ->
  cb.Groups group !! orgName = Some org ->
  is_Some (view !! policyName) ->
  in_channel config
    (in_child key (on_child orgName (fun cg => removePolicy cg policyName view)))
  = Returns
      {| cb.ChannelGroup :=
           Some (set_group key
                   (set_group orgName
                      (with_policies org (delete policyName <$> cb.Policies org))
                      group)
                   channelGroup) |}
      None.
Proof.
  intros Hch Hgroup Horg [p Hp]. unfold in_channel, in_child, on_child, removePolicy.
  rewrite Hch, Hgroup, Horg, Hp. reflexivity.
Qed.

Lemma top_group_set (key other : string) (g channelGroup : cb.ConfigGroup) :
  top_group {| cb.ChannelGroup := Some (set_group key g channelGroup) |} other
  = if decide (key = other) then Some g else cb.Groups channelGroup !! other.
Proof. unfold top_group. cbn. apply lookup_insert. Qed.

(** X15: removing from the application group a policy that the group has
    (its policies being extractable) returns no error; afterwards the
    application group's policies are the former ones without that name, and
    the other groups under the channel group are untouched. *)
Theorem RemoveApplicationPolicy_present (config : cb.Config)
    (view : gmap string Policy) (policyName : string) :
  range_lawful E ->
  GetPoliciesForApplication config = Ok view ->
  is_Some (view !! policyName) ->
  exists config' : cb.Config,
    RemoveApplicationPolicy config policyName = Returns config' None
    /\ GetPoliciesForApplication config' = Ok (delete policyName view)
    /\ forall key, key <> ApplicationGroupKey ->
                   top_group config' key = top_group config key.
Proof.
  intros Hlawful Hget Hpresent. unfold RemoveApplicationPolicy. rewrite Hget.
  unfold GetPoliciesForApplication in Hget.
  destruct config as [[channelGroup|]]; cbn in Hget; [|discriminate].
  destruct (cb.Groups channelGroup !! ApplicationGroupKey) as [application|] eqn:Happ;
    [|discriminate].
  eexists. split; [|split].
  - apply (remove_in_top_group _ _ _ channelGroup application); [reflexivity | exact Happ | exact Hpresent].
  - unfold GetPoliciesForApplication. cbn. rewrite lookup_insert_eq.
    apply getPolicies_delete; assumption.
  - intros key Hne. rewrite top_group_set. now rewrite decide_False by congruence.
Qed.

(** X16: the same for the orderer group and any policy name other than
    BlockValidation. *)
Theorem RemoveOrdererPolicy_present (config : cb.Config)
    (view : gmap string Policy) (policyName : string) :
  range_lawful E ->
  policyName <> BlockValidationPolicyKey ->
  GetPoliciesForOrderer config = Ok view ->
  is_Some (view !! policyName) ->
  exists config' : cb.Config,
    RemoveOrdererPolicy config policyName = Returns config' None
    /\ GetPoliciesForOrderer config' = Ok (delete policyName view)
    /\ forall key, key <> OrdererGroupKey ->
                   top_group config' key = top_group config key.
Proof.
  intros Hlawful Hname Hget Hpresent. unfold RemoveOrdererPolicy.
  destruct (String.eqb_spec policyName BlockValidationPolicyKey) as [?|_];
    [contradiction|].
  rewrite Hget. unfold GetPoliciesForOrderer in Hget.
  destruct config as [[channelGroup|]]; cbn in Hget; [|discriminate].
  destruct (cb.Groups channelGroup !! OrdererGroupKey) as [orderer|] eqn:Hord;
    [|discriminate].
  eexists. split; [|split].
  - apply (remove_in_top_group _ _ _ channelGroup orderer); [reflexivity | exact Hord | exact Hpresent].
  - unfold GetPoliciesForOrderer. cbn. rewrite lookup_insert_eq.
    apply getPolicies_delete; assumption.
  - intros key Hne. rewrite top_group_set. now rewrite decide_False by congruence.
Qed.

(** X17: removing from an application org, or from an orderer org, a policy
    that the org has returns no error, and afterwards the org's policies are
    the former ones without that name. *)
Theorem RemoveOrgPolicy_present (config : cb.Config) (view : gmap string Policy)
    (orgName policyName : string) :
  range_lawful E ->
  is_Some (view !! policyName) ->
  (GetPoliciesForApplicationOrg config orgName = Ok view ->
   exists config' : cb.Config,
     RemoveApplicationOrgPolicy config orgName policyName = Returns config' None
     /\ GetPoliciesForApplicationOrg config' orgName = Ok (delete policyName view))
  /\ (GetPoliciesForOrdererOrg config orgName = Ok view ->
      exists config' : cb.Config,
        RemoveOrdererOrgPolicy config orgName policyName = Returns config' None
        /\ GetPoliciesForOrdererOrg config' orgName = Ok (delete policyName view)).
Proof.
  intros Hlawful Hpresent. split.
  - intros Hget. unfold RemoveApplicationOrgPolicy. rewrite Hget.
    unfold GetPoliciesForApplicationOrg in Hget.
    destruct config as [[channelGroup|]]; cbn in Hget; [|discriminate].
    destruct (cb.Groups channelGroup !! ApplicationGroupKey) as [application|] eqn:Happ;
      cbn in Hget; [|discriminate].
    destruct (cb.Groups application !! orgName) as [org|] eqn:Horg; [|discriminate].
    eexists. split.
    + apply (remove_in_org_group _ _ _ _ channelGroup application org);
        [reflexivity | exact Happ | exact Horg | exact Hpresent].
    + unfold GetPoliciesForApplicationOrg. cbn. rewrite lookup_insert_eq. cbn.
      rewrite lookup_insert_eq. apply getPolicies_delete; assumption.
  - intros Hget. unfold RemoveOrdererOrgPolicy. rewrite Hget.
    unfold GetPoliciesForOrdererOrg in Hget.
    destruct config as [[channelGroup|]]; cbn in Hget; [|discriminate].
    destruct (cb.Groups channelGroup !! OrdererGroupKey) as [orderer|] eqn:Hord;
      cbn in Hget; [|discriminate].
    destruct (cb.Groups orderer !! orgName) as [org|] eqn:Horg; [|discriminate].
    eexists. split.
    + apply (remove_in_org_group _ _ _ _ channelGroup orderer org);
        [reflexivity | exact Hord | exact Horg | exact Hpresent].
    + unfold GetPoliciesForOrdererOrg. cbn. rewrite lookup_insert_eq. cbn.
      rewrite lookup_insert_eq. apply getPolicies_delete; assumption.
Qed.
End removers_compose.

Lemma RemoveApplicationPolicy_present_witness :
  exists config' : cb.Config,
    RemoveApplicationPolicy (E := sample_externals) sample_channel ReadersPolicyKey
    = Returns config' None
    /\ GetPoliciesForApplication (E := sample_externals) config'
       = Ok (delete ReadersPolicyKey sample_good_view)
    /\ forall key, key <> ApplicationGroupKey ->
                   top_group config' key = top_group sample_channel key.
Proof.
  refine (RemoveApplicationPolicy_present (E := sample_externals) sample_channel
            sample_good_view ReadersPolicyKey sample_externals_lawful eq_refl _).
  eexists. reflexivity.
Defined.

Lemma RemoveOrdererPolicy_present_witness :
  exists config' : cb.Config,
    RemoveOrdererPolicy (E := sample_externals) sample_channel WritersPolicyKey
    = Returns config' None
    /\ GetPoliciesForOrderer (E := sample_externals) config'
       = Ok (delete WritersPolicyKey sample_good_view)
    /\ forall key, key <> OrdererGroupKey ->
                   top_group config' key = top_group sample_channel key.
Proof.
  refine (RemoveOrdererPolicy_present (E := sample_externals) sample_channel
            sample_good_view WritersPolicyKey sample_externals_lawful _ eq_refl _).
  - discriminate.
  - eexists. reflexivity.
Defined.

Lemma RemoveOrgPolicy_present_witness :
  (exists config' : cb.Config,
     RemoveApplicationOrgPolicy (E := sample_externals) sample_channel "Org1"
       ReadersPolicyKey
     = Returns config' None
     /\ GetPoliciesForApplicationOrg (E := sample_externals) config' "Org1"
        = Ok (delete ReadersPolicyKey sample_good_view))
  /\ (exists config' : cb.Config,
        RemoveOrdererOrgPolicy (E := sample_externals) sample_channel "OrdererOrg"
          ReadersPolicyKey
        = Returns config' None
        /\ GetPoliciesForOrdererOrg (E := sample_externals) config' "OrdererOrg"
           = Ok (delete ReadersPolicyKey sample_good_view)).
Proof.
  assert (Hpresent : is_Some (sample_good_view !! ReadersPolicyKey))
    by (eexists; reflexivity).
  split.
  - exact (proj1 (RemoveOrgPolicy_present (E := sample_externals) sample_channel
                    sample_good_view "Org1" ReadersPolicyKey
                    sample_externals_lawful Hpresent) eq_refl).
  - exact (proj2 (RemoveOrgPolicy_present (E := sample_externals) sample_channel
                    sample_good_view "OrdererOrg" ReadersPolicyKey
                    sample_externals_lawful Hpresent) eq_refl).
Defined.

Lemma RemoveApplicationPolicy_absent_policy_error_witness :
  RemoveApplicationPolicy (E := sample_externals) sample_channel AdminsPolicyKey
  = Returns sample_channel (Some "could not find policy 'Admins'").
Proof.
  exact (RemoveApplicationPolicy_absent_policy_error (E := sample_externals)
           sample_channel sample_good_view AdminsPolicyKey eq_refl eq_refl).
Defined.

(** ** Navigation errors *)

Lemma config_eta (config : cb.Config) (channelGroup : cb.ConfigGroup) :
  cb.ChannelGroup config = Some channelGroup ->
  {| cb.ChannelGroup := Some channelGroup |} = config.
Proof. destruct config as [c]. cbn. now intros ->. Qed.

Section navigation_errors.
Context {E : Externals}.

(** X19: on a config with a channel group, each getter returns its own
    not-found error when the last group of its path is missing and the groups
    before it are there: the three top-level getters say the group is
    missing from config, the four others name the consortium or org that
    does not exist. *)
Theorem getters_last_segment_missing (config : cb.Config)
    (channelGroup : cb.ConfigGroup) (consortiumName orgName : string) :
  cb.ChannelGroup config = Some channelGroup ->
  (cb.Groups channelGroup !! ConsortiumsGroupKey = None ->
   GetPoliciesForConsortiums config = Err "consortiums missing from config")
  /\ (cb.Groups channelGroup !! OrdererGroupKey = None ->
      GetPoliciesForOrderer config = Err "orderer missing from config")
  /\ (cb.Groups channelGroup !! ApplicationGroupKey = None ->
      GetPoliciesForApplication config = Err "application missing from config")
  /\ (org_group config ConsortiumsGroupKey consortiumName = None ->
      is_Some (top_group config ConsortiumsGroupKey) ->
      GetPoliciesForConsortium config consortiumName
      = Err ("consortium " +:+ consortiumName +:+ " does not exist in channel config"))
  /\ (consortium_org config consortiumName orgName = None ->
      is_Some (org_group config ConsortiumsGroupKey consortiumName) ->
      GetPoliciesForConsortiumOrg config consortiumName orgName
      = Err ("consortium org " +:+ orgName +:+ " does not exist in channel config"))
  /\ (org_group config OrdererGroupKey orgName = None ->
      is_Some (top_group config OrdererGroupKey) ->
      GetPoliciesForOrdererOrg config orgName
      = Err ("orderer org " +:+ orgName +:+ " does not exist in channel config"))
  /\ (org_group config ApplicationGroupKey orgName = None ->
      is_Some (top_group config ApplicationGroupKey) ->
      GetPoliciesForApplicationOrg config orgName
      = Err ("application org " +:+ orgName +:+ " does not exist in channel config")).
Proof.
  intros Hch.
  unfold GetPoliciesForConsortiums, GetPoliciesForOrderer, GetPoliciesForApplication,
    GetPoliciesForConsortium, GetPoliciesForConsortiumOrg, GetPoliciesForOrdererOrg,
    GetPoliciesForApplicationOrg, consortium_org, org_group, top_group.
  rewrite Hch. cbn.
  repeat split.
  - now intros ->.
  - now intros ->.
  - now intros ->.
  - intros Hnone [consortiums Hc]. rewrite Hc in *. cbn in *. now rewrite Hnone.
  - destruct (cb.Groups channelGroup !! ConsortiumsGroupKey) as [consortiums|];
      cbn; [|intros _ [? [=]]].
    intros Hnone [consortium Hc]. rewrite Hc in *. cbn in *. now rewrite Hnone.
  - intros Hnone [orderer Ho]. rewrite Ho in *. cbn in *. now rewrite Hnone.
  - intros Hnone [application Ha]. rewrite Ha in *. cbn in *. now rewrite Hnone.
Qed.

(** X20: AddConsortiumOrgPolicy and RemoveConsortiumOrgPolicy, on a config
    with a Consortiums group, return an error and leave the config as it was
    when the consortium is missing (consortium '<name>' does not exist in
    channel config) and when the consortium is there without the org (the
    lower-cased group key is part of the text: consortiums org '<name>' does
    not exist in channel config). *)
Theorem ConsortiumOrgPolicy_missing_segment (config : cb.Config)
    (consortiums : cb.ConfigGroup) (consortiumName orgName policyName : string)
    (policy : Policy) :
  top_group config ConsortiumsGroupKey = Some consortiums ->
  (cb.Groups consortiums !! consortiumName = None ->
   AddConsortiumOrgPolicy config consortiumName orgName policyName policy
   = Returns config
       (Some ("consortium '" +:+ consortiumName
              +:+ "' does not exist in channel config"))
   /\ RemoveConsortiumOrgPolicy config consortiumName orgName policyName
      = Returns config
          (Some ("consortium '" +:+ consortiumName
                 +:+ "' does not exist in channel config")))
  /\ (is_Some (cb.Groups consortiums !! consortiumName) ->
      consortium_org config consortiumName orgName = None ->
      AddConsortiumOrgPolicy config consortiumName orgName policyName policy
      = Returns config
          (Some ("consortiums org '" +:+ orgName
                 +:+ "' does not exist in channel config"))
      /\ RemoveConsortiumOrgPolicy config consortiumName orgName policyName
         = Returns config
             (Some ("consortiums org '" +:+ orgName
                    +:+ "' does not exist in channel config"))).
Proof.
  unfold top_group, consortium_org, AddConsortiumOrgPolicy, RemoveConsortiumOrgPolicy,
    in_channel, in_child.
  destruct (cb.ChannelGroup config) as [channelGroup|] eqn:Hch; cbn; [|discriminate].
  intros Hcons. rewrite Hcons. cbn. split.
  - intros ->. rewrite (set_group_same _ _ _ Hcons), (config_eta _ _ Hch).
    split; reflexivity.
  - intros [consortium ->]. cbn. intros ->.
    rewrite (set_group_same _ _ _ Hcons), (config_eta _ _ Hch).
    split; reflexivity.
Qed.

(** X21: AddConsortiumOrgPolicy takes no modification policy: on success the
    entry it writes into the consortium org always carries Admins as its
    modification policy. *)
Theorem AddConsortiumOrgPolicy_success (config : cb.Config) (org : cb.ConfigGroup)
    (policies : gmap string cb.ConfigPolicy)
    (consortiumName orgName policyName : string) (policy : Policy)
    (stored : cb.ConfigPolicy) :
  consortium_org config consortiumName orgName = Some org ->
  cb.Policies org = Some policies ->
  encodePolicy AdminsPolicyKey policy = Ok stored ->
  exists config' : cb.Config,
    AddConsortiumOrgPolicy config consortiumName orgName policyName policy
    = Returns config' None
    /\ consortium_org config' consortiumName orgName
       = Some (with_policies org (Some (<[policyName := stored]> policies)))
    /\ cb.cp_ModPolicy stored = AdminsPolicyKey.
Proof.
  unfold consortium_org, AddConsortiumOrgPolicy, in_channel, in_child.
  destruct (cb.ChannelGroup config) as [channelGroup|]; cbn; [|discriminate].
  destruct (cb.Groups channelGroup !! ConsortiumsGroupKey) as [consortiums|];
    cbn; [|discriminate].
  destruct (cb.Groups consortiums !! consortiumName) as [consortium|];
    cbn; [|discriminate].
  intros Horg Hpolicies Henc. rewrite Horg.
  rewrite addPolicy_encodePolicy, Henc. unfold store_policy. rewrite Hpolicies.
  eexists. split; [reflexivity|]. split.
  - cbn. rewrite lookup_insert_eq. cbn. rewrite lookup_insert_eq. cbn.
    rewrite lookup_insert_eq. reflexivity.
  - apply encodePolicy_Ok in Henc as (tag & value & -> & _). reflexivity.
Qed.

(** A failing install through a pointer read from [parent.Groups[key]],
    nil or not, leaves the parent as it was. *)
Lemma on_child_addPolicy_error (key modPolicy policyName : string)
    (policy : Policy) (err : string) (parent : cb.ConfigGroup) :
  encodePolicy modPolicy policy = Err err ->
  on_child key (fun cg => addPolicy cg modPolicy policyName policy) parent
  = Returns parent (Some err).
Proof.
  intros Henc. unfold on_child. rewrite addPolicy_encodePolicy, Henc.
  destruct (cb.Groups parent !! key) as [g|] eqn:Hg; [|reflexivity].
  now rewrite (set_group_same _ _ _ Hg).
Qed.

(** X22: when the policy does not compile or encode, AddApplicationPolicy and
    AddOrdererPolicy return the installer's error behind the prefix
    [failed to add policy '<name>': ], and leave the config as it was,
    whether or not the application or orderer group exists. *)
Theorem AddPolicy_error_wrapped (config : cb.Config) (channelGroup : cb.ConfigGroup)
    (modPolicy policyName : string) (policy : Policy) (err : string) :
  cb.ChannelGroup config = Some channelGroup ->
  encodePolicy modPolicy policy = Err err ->
  AddApplicationPolicy config modPolicy policyName policy
  = Returns config (Some ("failed to add policy '" +:+ policyName +:+ "': " +:+ err))
  /\ AddOrdererPolicy config modPolicy policyName policy
     = Returns config (Some ("failed to add policy '" +:+ policyName +:+ "': " +:+ err)).
Proof.
  intros Hch Henc. unfold AddApplicationPolicy, AddOrdererPolicy, in_channel.
  rewrite Hch, !(on_child_addPolicy_error _ _ _ _ _ _ Henc). cbn.
  rewrite (config_eta _ _ Hch). split; reflexivity.
Qed.

(** X23: the org-level adders differ: with the application (resp. orderer)
    group present, a policy that does not compile or encode makes
    AddApplicationOrgPolicy return the wrapped error and AddOrdererOrgPolicy
    the installer's error as it is; both leave the config as it was, whether
    or not the org exists. *)
Theorem AddOrgPolicy_error (config : cb.Config) (orgName modPolicy policyName : string)
    (policy : Policy) (err : string) :
  encodePolicy modPolicy policy = Err err ->
  (is_Some (top_group config ApplicationGroupKey) ->
   AddApplicationOrgPolicy config orgName modPolicy policyName policy
   = Returns config (Some ("failed to add policy '" +:+ policyName +:+ "': " +:+ err)))
  /\ (is_Some (top_group config OrdererGroupKey) ->
      AddOrdererOrgPolicy config orgName modPolicy policyName policy
      = Returns config (Some err)).
Proof.
  intros Henc.
  unfold top_group, AddApplicationOrgPolicy, AddOrdererOrgPolicy, in_channel, in_child.
  destruct (cb.ChannelGroup config) as [channelGroup|] eqn:Hch; cbn.
  - split; intros [g Hg]; rewrite Hg, (on_child_addPolicy_error _ _ _ _ _ _ Henc);
      cbn; now rewrite (set_group_same _ _ _ Hg), (config_eta _ _ Hch).
  - split; intros [g [=]].
Qed.

(** X24: with the application (resp. orderer) group missing under the
    channel group, AddApplicationPolicy (resp. AddOrdererPolicy) of a policy
    that compiles and encodes panics: the nil group pointer reaches the write
    into its policy map. *)
Theorem AddPolicy_missing_group_panics (config : cb.Config)
    (channelGroup : cb.ConfigGroup) (modPolicy policyName : string)
    (policy : Policy) (stored : cb.ConfigPolicy) :
  cb.ChannelGroup config = Some channelGroup ->
  encodePolicy modPolicy policy = Ok stored ->
  (cb.Groups channelGroup !! ApplicationGroupKey = None ->
   AddApplicationPolicy config modPolicy policyName policy = Panics)
  /\ (cb.Groups channelGroup !! OrdererGroupKey = None ->
      AddOrdererPolicy config modPolicy policyName policy = Panics).
Proof.
  intros Hch Henc.
  unfold AddApplicationPolicy, AddOrdererPolicy, in_channel, on_child.
  rewrite Hch. split; intros ->; rewrite addPolicy_encodePolicy, Henc; reflexivity.
Qed.

Lemma add_in_top_group (key modPolicy policyName : string) (config : cb.Config)
    (channelGroup group : cb.ConfigGroup) (policies : gmap string cb.ConfigPolicy)
    (policy : Policy) (stored : cb.ConfigPolicy) :
  cb.ChannelGroup config = Some channelGroup ->
  cb.Groups channelGroup !! key = Some group ->
  cb.Policies group = Some policies ->
  encodePolicy modPolicy policy = Ok stored ->
  in_channel config (on_child key (fun cg => addPolicy cg modPolicy policyName policy))
  = Returns
      {| cb.ChannelGroup :=
           Some (set_group key
                   (with_policies group (Some (<[policyName := stored]> policies)))
                   channelGroup) |}
      None.
Proof.
  intros Hch Hgroup Hpolicies Henc. unfold in_channel, on_child.
  rewrite Hch, Hgroup, addPolicy_encodePolicy, Henc. unfold store_policy.
  rewrite Hpolicies. reflexivity.
Qed.

(** X25: AddApplicationPolicy and AddOrdererPolicy of a policy that compiles
    and encodes, on a group that has a policy map, return no error; the
    group then holds the encoded entry under the policy name, and the other
    groups under the channel group are untouched. *)
Theorem AddPolicy_success (config : cb.Config) (group : cb.ConfigGroup)
    (policies : gmap string cb.ConfigPolicy) (modPolicy policyName : string)
    (policy : Policy) (stored : cb.ConfigPolicy) :
  cb.Policies group = Some policies ->
  encodePolicy modPolicy policy = Ok stored ->
  (top_group config ApplicationGroupKey = Some group ->
   exists config' : cb.Config,
     AddApplicationPolicy config modPolicy policyName policy = Returns config' None
     /\ top_group config' ApplicationGroupKey
        = Some (with_policies group (Some (<[policyName := stored]> policies)))
     /\ forall other, other <> ApplicationGroupKey ->
                      top_group config' other = top_group config other)
  /\ (top_group config OrdererGroupKey = Some group ->
      exists config' : cb.Config,
        AddOrdererPolicy config modPolicy policyName policy = Returns config' None
        /\ top_group config' OrdererGroupKey
           = Some (with_policies group (Some (<[policyName := stored]> policies)))
        /\ forall other, other <> OrdererGroupKey ->
                         top_group config' other = top_group config other).
Proof.
  intros Hpolicies Henc. unfold top_group, AddApplicationPolicy, AddOrdererPolicy.
  destruct (cb.ChannelGroup config) as [channelGroup|] eqn:Hch; cbn [mbind option_bind].
  - split; intros Hgroup;
      rewrite (add_in_top_group _ _ _ _ _ _ _ _ _ Hch Hgroup Hpolicies Henc);
      (eexists; split; [reflexivity|]); cbn; split.
    + apply lookup_insert_eq.
    + intros other Hne. now apply lookup_insert_ne.
    + apply lookup_insert_eq.
    + intros other Hne. now apply lookup_insert_ne.
  - split; discriminate.
Qed.
End navigation_errors.

Lemma getters_last_segment_missing_witness :
  GetPoliciesForApplication (E := sample_externals) config_without_application
  = Err "application missing from config"
  /\ GetPoliciesForConsortium (E := sample_externals) config_without_consortium
       "SampleConsortium"
     = Err "consortium SampleConsortium does not exist in channel config"
  /\ GetPoliciesForApplicationOrg (E := sample_externals) sample_channel "Org9"
     = Err "application org Org9 does not exist in channel config".
Proof.
  split; [|split].
  - apply (getters_last_segment_missing (E := sample_externals)
             config_without_application (cb.Build_ConfigGroup ∅ None) "" "" eq_refl).
    reflexivity.
  - apply (getters_last_segment_missing (E := sample_externals)
             config_without_consortium
             (cb.Build_ConfigGroup
                {[ ConsortiumsGroupKey := cb.Build_ConfigGroup ∅ None ]} None)
             "SampleConsortium" "" eq_refl).
    + reflexivity.
    + eexists. reflexivity.
  - apply (getters_last_segment_missing (E := sample_externals) sample_channel
             sample_channel_group "" "Org9" eq_refl).
    + reflexivity.
    + eexists. reflexivity.
Defined.

Lemma ConsortiumOrgPolicy_missing_segment_witness :
  AddConsortiumOrgPolicy (E := sample_externals) config_without_consortium
    "SampleConsortium" "Org1" ReadersPolicyKey
    {| Type_ := ImplicitMetaPolicyType; Rule := "ANY Readers" |}
  = Returns config_without_consortium
      (Some "consortium 'SampleConsortium' does not exist in channel config")
  /\ RemoveConsortiumOrgPolicy sample_config "SampleConsortium" "Org9" ReadersPolicyKey
     = Returns sample_config
         (Some "consortiums org 'Org9' does not exist in channel config").
Proof.
  split.
  - apply (proj1 (ConsortiumOrgPolicy_missing_segment (E := sample_externals)
                    config_without_consortium (cb.Build_ConfigGroup ∅ None)
                    "SampleConsortium" "Org1" ReadersPolicyKey
                    {| Type_ := ImplicitMetaPolicyType; Rule := "ANY Readers" |}
                    eq_refl)).
    reflexivity.
  - apply (proj2 (ConsortiumOrgPolicy_missing_segment (E := sample_externals)
                    sample_config
                    (cb.Build_ConfigGroup
                       {[ "SampleConsortium" :=
                            cb.Build_ConfigGroup {[ "Org1" := sample_org ]} None ]}
                       None)
                    "SampleConsortium" "Org9" ReadersPolicyKey
                    {| Type_ := ImplicitMetaPolicyType; Rule := "ANY Readers" |}
                    eq_refl)).
    + eexists. reflexivity.
    + reflexivity.
Defined.

Lemma AddConsortiumOrgPolicy_success_witness :
  exists config' : cb.Config,
    AddConsortiumOrgPolicy (E := sample_externals) sample_config "SampleConsortium"
      "Org1" WritersPolicyKey
      {| Type_ := ImplicitMetaPolicyType; Rule := "ANY Writers" |}
    = Returns config' None
    /\ consortium_org config' "SampleConsortium" "Org1"
       = Some (with_policies sample_org
                 (Some (<[WritersPolicyKey := sample_writers_stored]> sample_stored)))
    /\ cb.cp_ModPolicy sample_writers_stored = AdminsPolicyKey.
Proof.
  exact (AddConsortiumOrgPolicy_success (E := sample_externals) sample_config
           sample_org sample_stored "SampleConsortium" "Org1" WritersPolicyKey
           {| Type_ := ImplicitMetaPolicyType; Rule := "ANY Writers" |}
           sample_writers_stored eq_refl eq_refl eq_refl).
Defined.

Lemma AddPolicy_error_wrapped_witness :
  AddApplicationPolicy (E := sample_externals) config_without_application
    AdminsPolicyKey ReadersPolicyKey {| Type_ := "Bogus"; Rule := "" |}
  = Returns config_without_application
      (Some "failed to add policy 'Readers': unknown policy type: Bogus")
  /\ AddOrdererPolicy (E := sample_externals) config_without_application
       AdminsPolicyKey ReadersPolicyKey {| Type_ := "Bogus"; Rule := "" |}
     = Returns config_without_application
         (Some "failed to add policy 'Readers': unknown policy type: Bogus").
Proof.
  exact (AddPolicy_error_wrapped (E := sample_externals) config_without_application
           (cb.Build_ConfigGroup ∅ None) AdminsPolicyKey ReadersPolicyKey
           {| Type_ := "Bogus"; Rule := "" |} "unknown policy type: Bogus"
           eq_refl eq_refl).
Defined.

Lemma AddOrgPolicy_error_witness :
  AddApplicationOrgPolicy (E := sample_externals) sample_channel "Org9"
    AdminsPolicyKey ReadersPolicyKey {| Type_ := "Bogus"; Rule := "" |}
  = Returns sample_channel
      (Some "failed to add policy 'Readers': unknown policy type: Bogus")
  /\ AddOrdererOrgPolicy (E := sample_externals) sample_channel "Org9"
       AdminsPolicyKey ReadersPolicyKey {| Type_ := "Bogus"; Rule := "" |}
     = Returns sample_channel (Some "unknown policy type: Bogus").
Proof.
  destruct (AddOrgPolicy_error (E := sample_externals) sample_channel "Org9"
              AdminsPolicyKey ReadersPolicyKey {| Type_ := "Bogus"; Rule := "" |}
              "unknown policy type: Bogus" eq_refl) as [Happ Hord].
  split; [apply Happ | apply Hord]; eexists; reflexivity.
Defined.

Lemma AddPolicy_missing_group_panics_witness :
  AddApplicationPolicy (E := sample_externals) config_without_application
    AdminsPolicyKey WritersPolicyKey
    {| Type_ := ImplicitMetaPolicyType; Rule := "ANY Writers" |}
  = Panics
  /\ AddOrdererPolicy (E := sample_externals) config_without_application
       AdminsPolicyKey WritersPolicyKey
       {| Type_ := ImplicitMetaPolicyType; Rule := "ANY Writers" |}
     = Panics.
Proof.
  destruct (AddPolicy_missing_group_panics (E := sample_externals)
              config_without_application (cb.Build_ConfigGroup ∅ None)
              AdminsPolicyKey WritersPolicyKey
              {| Type_ := ImplicitMetaPolicyType; Rule := "ANY Writers" |}
              sample_writers_stored eq_refl eq_refl) as [Happ Hord].
  split; [apply Happ | apply Hord]; reflexivity.
Defined.

Lemma AddPolicy_success_witness :
  exists config' : cb.Config,
    AddApplicationPolicy (E := sample_externals) sample_channel AdminsPolicyKey
      AdminsPolicyKey {| Type_ := ImplicitMetaPolicyType; Rule := "MAJORITY Admins" |}
    = Returns config' None
    /\ top_group config' ApplicationGroupKey
       = Some (with_policies
                 (cb.Build_ConfigGroup {[ "Org1" := sample_good_org ]}
                    (Some sample_good_policies))
                 (Some (<[AdminsPolicyKey := sample_admins_stored]>
                          sample_good_policies)))
    /\ forall other, other <> ApplicationGroupKey ->
                     top_group config' other = top_group sample_channel other.
Proof.
  apply (proj1 (AddPolicy_success (E := sample_externals) sample_channel
                  (cb.Build_ConfigGroup {[ "Org1" := sample_good_org ]}
                     (Some sample_good_policies))
                  sample_good_policies AdminsPolicyKey AdminsPolicyKey
                  {| Type_ := ImplicitMetaPolicyType; Rule := "MAJORITY Admins" |}
                  sample_admins_stored eq_refl eq_refl)).
  reflexivity.
Defined.
